(** * WinRateCallback (trl/trainer/callback.py): a shallow embedding

    The callback generates reference completions once ([on_train_begin]),
    regenerates policy completions at every evaluation ([on_evaluate]),
    has an external judge compare the two, and logs the fraction of
    comparisons won by the policy.

    The Python code is modelled in a state-and-exception monad over a
    [World] that holds the callback object, the part of the trainer the
    callback touches, and the ordered trace of calls made to the host
    framework (tokenizer, model, judge, loggers). *)

From Stdlib Require Import List ZArith QArith String Bool Arith Lia Permutation.
Import ListNotations.
Close Scope Q_scope.
Local Open Scope nat_scope.
Local Open Scope list_scope.

(** ** Python values and primitives *)

Module Py.

Inductive exn : Type :=
| IndexError
| ZeroDivisionError
| ArrowInvalid
| AttributeError
| KeyError
| OverflowError.

Inductive outcome (A : Type) : Type :=
| Ok (a : A)
| Raise (e : exn).
Arguments Ok {A} a.
Arguments Raise {A} e.

(** [l[i]] for a non-negative index. *)
Definition getitem {A} (l : list A) (i : nat) : outcome A :=
  match nth_error l i with
  | Some x => Ok x
  | None => Raise IndexError
  end.

(** [l[-1]]. *)
Definition getitem_last {A} (l : list A) : outcome A :=
  match l with
  | [] => Raise IndexError
  | x :: l' => Ok (last l' x)
  end.

(** [l[:-1]]. *)
Definition drop_last {A} (l : list A) : list A := removelast l.

(** [l[n:]]. *)
Definition slice_from {A} (n : nat) (l : list A) : list A := skipn n l.

(** [enumerate(l)]. *)
Definition enumerate {A} (l : list A) : list (nat * A) :=
  combine (seq 0 (List.length l)) l.

(** [sum] of a list of integers. *)
Definition sum (l : list Z) : Z := fold_left Z.add l 0%Z.

(** A [bool] used as an integer, as [sum] does with [r == 0]. *)
Definition int_of_bool (b : bool) : Z := if b then 1%Z else 0%Z.

(** [a / b] on integers: true division.  Python returns the double
    nearest to the quotient; the quotient itself is kept here. *)
Definition truediv (a b : Z) : outcome Q :=
  if (b =? 0)%Z then Raise ZeroDivisionError
  else Ok (Qdiv (inject_Z a) (inject_Z b)).

(** [zip] of four lists, stopping at the shortest. *)
Fixpoint zip4 {A B C D} (la : list A) (lb : list B) (lc : list C) (ld : list D)
  : list (A * B * C * D) :=
  match la, lb, lc, ld with
  | a :: la', b :: lb', c :: lc', d :: ld' => (a, b, c, d) :: zip4 la' lb' lc' ld'
  | _, _, _, _ => []
  end.

(** [l.pop()]: the list without its last element; raises on [[]]. *)
Definition pop {A} (l : list A) : outcome (list A) :=
  match l with
  | [] => Raise IndexError
  | _ => Ok (removelast l)
  end.

End Py.
Export Py.

(** ** Data *)

(** One turn of a conversation: [{"role": ..., "content": ...}]. *)
Record Turn : Type := { role : string; content : string }.

Definition Conversation : Type := list Turn.

(** A row of the prompt dataset; the callback reads the columns
    ["prompt"] and ["chosen"]. *)
Record PromptRow : Type := { prompt : string; chosen : Conversation }.

Definition token : Type := Z.

(** A row of the dataset built at lines 105-111: the judge's result, the
    prompt, and the two-element list [[response0, response1]]. *)
Record ResultRow : Type :=
  { results : Z; prompts : string; completions : string * string }.

Inductive Cell : Type :=
| CStr (s : string)
| CInt (z : Z).

Inductive LogValue : Type :=
| VFloat (q : Q)
| VInt (z : Z)
| VTable (columns : list string) (rows : list (list Cell)).

(** A dict handed to a logger. *)
Definition Logs : Type := list (string * LogValue).

(** ** The host framework *)

(** [kwargs["tokenizer"]]: chat-template tokenization of a conversation
    into one row of token ids (a tensor of shape [1 x L]), and decoding. *)
Record Tokenizer : Type :=
  { apply_chat_template : Conversation -> list token;
    decode : list token -> string }.

(** The unwrapped model with the callback's generation configuration:
    [generate] maps the input row to the rows of the output tensor. *)
Record Model : Type :=
  { generate : list token -> list (list token) }.

Record Judge : Type :=
  { judge_batch : list string -> list (string * string) -> list Z }.

(** [self.trainer.accelerator], seen from one process:
    [split_between_processes(., apply_padding=True)] yields the local
    shard and [gather_object] the results of all processes. *)
Record Accelerator : Type :=
  { split_between_processes : list PromptRow -> list PromptRow;
    gather_object : list ResultRow -> list ResultRow;
    is_main_process : bool }.

(** Calls made to the host framework, in order. *)
Inductive Call : Type :=
| ApplyChatTemplate (messages : Conversation)
| Generate (input_ids : list token)
| JudgeBatch (ps : list string) (cs : list (string * string))
| TrainerLog (logs : Logs)
| WandbLog (logs : Logs).

(** ** State *)

(** The attributes of [self] that hold data (lines 31-36). *)
Record WinRateCallback : Type :=
  { prompt_dataset : list PromptRow;
    self_completions : list string;
    ref_completions : list string }.

(** The part of the trainer the callback reads or writes. *)
Record Trainer : Type :=
  { training : bool;
    global_step : Z;
    log_history : list Logs }.

Record World : Type :=
  { self : WinRateCallback;
    trainer : Trainer;
    calls : list Call }.

(** [__init__] (lines 24-36). *)
Definition init (dataset : list PromptRow) : WinRateCallback :=
  {| prompt_dataset := dataset; self_completions := []; ref_completions := [] |}.

Definition with_self (cb : WinRateCallback) (w : World) : World :=
  {| self := cb; trainer := trainer w; calls := calls w |}.

Definition with_trainer (t : Trainer) (w : World) : World :=
  {| self := self w; trainer := t; calls := calls w |}.

Definition with_calls (cs : list Call) (w : World) : World :=
  {| self := self w; trainer := trainer w; calls := cs |}.

(** ** The monad: state with exceptions

    A raised exception keeps the state reached so far, as in Python. *)

Definition M (A : Type) : Type := World -> outcome A * World.

Definition ret {A} (a : A) : M A := fun w => (Ok a, w).

Definition bind {A B} (m : M A) (k : A -> M B) : M B :=
  fun w =>
    match m w with
    | (Ok a, w') => k a w'
    | (Raise e, w') => (Raise e, w')
    end.

Definition lift {A} (o : outcome A) : M A := fun w => (o, w).

Declare Scope py_scope.
Delimit Scope py_scope with py.
Notation "x <- m ;; k" := (bind m (fun x => k))
  (at level 100, m at next level, right associativity) : py_scope.
Notation "m ;; k" := (bind m (fun _ => k))
  (at level 100, right associativity) : py_scope.
Local Open Scope py_scope.

Definition get_self : M WinRateCallback := fun w => (Ok (self w), w).

Definition get_trainer : M Trainer := fun w => (Ok (trainer w), w).

Definition record_call (c : Call) : M unit :=
  fun w => (Ok tt, with_calls (calls w ++ [c]) w).

(** [unwrapped_model.eval()] and [unwrapped_model.train()]. *)
Definition set_training (b : bool) : M unit :=
  fun w =>
    (Ok tt,
     with_trainer {| training := b;
                     global_step := global_step (trainer w);
                     log_history := log_history (trainer w) |} w).

Definition set_log_history (h : list Logs) : M unit :=
  fun w =>
    (Ok tt,
     with_trainer {| training := training (trainer w);
                     global_step := global_step (trainer w);
                     log_history := h |} w).

(** [self.ref_completions.append(s)]. *)
Definition append_ref_completion (s : string) : M unit :=
  fun w =>
    (Ok tt,
     with_self {| prompt_dataset := prompt_dataset (self w);
                  self_completions := self_completions (self w);
                  ref_completions := ref_completions (self w) ++ [s] |} w).

(** [self.trainer.log(logs)]: the host trainer appends the dict to
    [state.log_history] (this is why line 140 pops it again). *)
Definition trainer_log (logs : Logs) : M unit :=
  record_call (TrainerLog logs) ;;
  t <- get_trainer ;;
  set_log_history (log_history t ++ [logs]).

Definition wandb_log (logs : Logs) : M unit := record_call (WandbLog logs).

(** [self.trainer.state.log_history.pop()]. *)
Definition log_history_pop : M unit :=
  t <- get_trainer ;;
  h <- lift (pop (log_history t)) ;;
  set_log_history h.

Definition call_apply_chat_template (tokenizer : Tokenizer) (messages : Conversation)
  : M (list token) :=
  record_call (ApplyChatTemplate messages) ;;
  ret (apply_chat_template tokenizer messages).

Definition call_generate (model : Model) (input_ids : list token)
  : M (list (list token)) :=
  record_call (Generate input_ids) ;;
  ret (generate model input_ids).

Definition call_judge_batch (judge : Judge) (ps : list string) (cs : list (string * string))
  : M (list Z) :=
  record_call (JudgeBatch ps cs) ;;
  ret (judge_batch judge ps cs).

(** A [for] loop whose body updates the local variables [S]. *)
Fixpoint for_loop {A S} (xs : list A) (body : S -> A -> M S) (s : S) : M S :=
  match xs with
  | [] => ret s
  | x :: xs' => s' <- body s x ;; for_loop xs' body s'
  end.

(** ** The datasets library *)

(** What line 76 hands to [Dataset.from_dict]: a [Dataset], which is what
    [split_between_processes] yields for a [Dataset], or a mapping from
    column names to columns, which is what [from_dict] is written for. *)
Inductive PromptsObject : Type :=
| DatasetObject (rows : list PromptRow)
| MappingObject (prompt_column : list string) (chosen_column : list Conversation).

(** The rows of two columns, which must have one length. *)
Fixpoint prompt_rows (ps : list string) (cs : list Conversation)
  : outcome (list PromptRow) :=
  match ps, cs with
  | [], [] => Ok []
  | p :: ps', c :: cs' =>
      match prompt_rows ps' cs' with
      | Ok rows => Ok ({| prompt := p; chosen := c |} :: rows)
      | Raise e => Raise e
      end
  | _, _ => Raise ArrowInvalid
  end.

(** [Dataset.from_dict(mapping)] begins by iterating [mapping.items()];
    a [Dataset] has no attribute [items]. *)
Definition dataset_from_dict (mapping : PromptsObject) : outcome (list PromptRow) :=
  match mapping with
  | DatasetObject _ => Raise AttributeError
  | MappingObject ps cs => prompt_rows ps cs
  end.

(** The range of an Arrow [int64] column. *)
Definition fits_int64 (z : Z) : bool :=
  ((- 2 ^ 63 <=? z) && (z <? 2 ^ 63))%Z.

(** The rows of three columns, which must have one length. *)
Fixpoint result_rows (rs : list Z) (ps : list string) (cs : list (string * string))
  : outcome (list ResultRow) :=
  match rs, ps, cs with
  | [], [], [] => Ok []
  | r :: rs', p :: ps', c :: cs' =>
      match result_rows rs' ps' cs' with
      | Ok rows => Ok ({| results := r; prompts := p; completions := c |} :: rows)
      | Raise e => Raise e
      end
  | _, _, _ => Raise ArrowInvalid
  end.

(** [Dataset.from_dict] on the three columns of lines 105-111: the
    results are converted to an [int64] column first, then the columns
    must have one length. *)
Definition from_dict (rs : list Z) (ps : list string) (cs : list (string * string))
  : outcome (list ResultRow) :=
  if forallb fits_int64 rs then result_rows rs ps cs else Raise OverflowError.

(** A dataset of result rows.  [Dataset.from_list] reads the column
    names off the first row, so the dataset of an empty list has no
    column at all. *)
Inductive ResultsDataset : Type :=
| NoColumns
| Table (rows : list ResultRow).

(** [Dataset.from_list(rows)]. *)
Definition from_list (rows : list ResultRow) : ResultsDataset :=
  match rows with
  | [] => NoColumns
  | _ => Table rows
  end.

(** [dataset.select(range(n))]: a dataset without rows is returned as it
    is; otherwise the last index must exist. *)
Definition select_range (dataset : ResultsDataset) (n : nat) : outcome ResultsDataset :=
  match dataset with
  | NoColumns => Ok NoColumns
  | Table [] => Ok (Table [])
  | Table rows =>
      if n <=? List.length rows then Ok (Table (firstn n rows)) else Raise IndexError
  end.

(** [dataset[name]] for one of the three columns: the dataset without
    columns has none by that name. *)
Definition column {A} (field : ResultRow -> A) (dataset : ResultsDataset)
  : outcome (list A) :=
  match dataset with
  | NoColumns => Raise KeyError
  | Table rows => Ok (map field rows)
  end.

(** ** The callback *)

Definition assistant : string := "assistant"%string.

(** Body of the loop of [on_train_begin] (lines 50-67). *)
Definition ref_completion_step (model : Model) (tokenizer : Tokenizer)
    (_ : unit) (messages : Conversation) : M unit :=
  final <- lift (getitem_last messages) ;;
  let messages :=
    if String.eqb (role final) assistant then drop_last messages else messages in
  tokenized_prompt <- call_apply_chat_template tokenizer messages ;;
  generation <- call_generate model tokenized_prompt ;;
  let padded_prompt_length := List.length tokenized_prompt in
  let generation := map (slice_from padded_prompt_length) generation in
  let text_generations := map (decode tokenizer) generation in
  ref_response <- lift (getitem text_generations 0) ;;
  append_ref_completion ref_response.

(** [on_train_begin] (lines 38-68). *)
Definition on_train_begin (accelerator : Accelerator) (model : Model)
    (tokenizer : Tokenizer) : M unit :=
  cb <- get_self ;;
  let prompts := split_between_processes accelerator (prompt_dataset cb) in
  _ <- lift (getitem prompts 0) ;;
  set_training false ;;
  for_loop (map chosen prompts) (ref_completion_step model tokenizer) tt ;;
  set_training true.

(** Body of the loop of [on_evaluate] (lines 82-101); the local variable
    it updates is [annotation_batch["completions"]]. *)
Definition policy_completion_step (model : Model) (tokenizer : Tokenizer)
    (batch_completions : list (string * string)) (im : nat * Conversation)
  : M (list (string * string)) :=
  let '(i, messages) := im in
  final <- lift (getitem_last messages) ;;
  let messages :=
    if String.eqb (role final) assistant then drop_last messages else messages in
  tokenized_prompt <- call_apply_chat_template tokenizer messages ;;
  generations <- call_generate model tokenized_prompt ;;
  let padded_prompt_length := List.length tokenized_prompt in
  let generations := map (slice_from padded_prompt_length) generations in
  let text_generations := map (decode tokenizer) generations in
  response0 <- lift (getitem text_generations 0) ;;
  cb <- get_self ;;
  response1 <- lift (getitem (ref_completions cb) i) ;;
  ret (batch_completions ++ [(response0, response1)]).

(** Line 118. *)
Definition compute_win_rate (results_dataset : list ResultRow) : outcome Q :=
  truediv
    (sum (map (fun r => int_of_bool (r =? 0)%Z) (map results results_dataset)))
    (Z.of_nat (List.length results_dataset)).

(** Line 118 on the selected dataset: the column lookup of the numerator
    comes before the division. *)
Definition win_rate_of (results_dataset : ResultsDataset) : outcome Q :=
  match results_dataset with
  | NoColumns => Raise KeyError
  | Table rows => compute_win_rate rows
  end.

Definition table_columns : list string :=
  ["Prompt"; "Policy"; "Ref Model"; "Chosen index"]%string.

(** Lines 114-140, entered on the main process with the gathered rows. *)
Definition aggregate (wandb_available : bool) (results_dict : list ResultRow) : M unit :=
  cb <- get_self ;;
  let dataset_len := List.length (prompt_dataset cb) in
  results_dataset <- lift (select_range (from_list results_dict) dataset_len) ;;
  win_rate <- lift (win_rate_of results_dataset) ;;
  trainer_log [("win_rate"%string, VFloat win_rate)] ;;
  if wandb_available then
    t <- get_trainer ;;
    wandb_log [("eval_win_rate"%string, VFloat win_rate);
               ("train/global_step"%string, VInt (global_step t))] ;;
    ps <- lift (column prompts results_dataset) ;;
    policy_pairs <- lift (column completions results_dataset) ;;
    let policy := map (fun c => fst c) policy_pairs in
    ref_pairs <- lift (column completions results_dataset) ;;
    let ref := map (fun c => snd c) ref_pairs in
    chosen_indices <- lift (column results results_dataset) ;;
    trainer_log
      [("winrate_generations"%string,
        VTable table_columns
          (map (fun '(p, pol, rf, index) => [CStr p; CStr pol; CStr rf; CInt index])
               (zip4 ps policy ref chosen_indices)))] ;;
    log_history_pop
  else ret tt.

(** Lines 78-112: the work of one process on its local dataset, up to
    the gather. *)
Definition evaluate_shard (accelerator : Accelerator) (model : Model) (judge : Judge)
    (tokenizer : Tokenizer) (local_dataset : list PromptRow) : M (list ResultRow) :=
  let batch_prompts := map prompt local_dataset in
  set_training false ;;
  batch_completions <-
    for_loop (enumerate (map chosen local_dataset))
             (policy_completion_step model tokenizer) [] ;;
  set_training true ;;
  results_dict <- call_judge_batch judge batch_prompts batch_completions ;;
  results_dict <- lift (from_dict results_dict batch_prompts batch_completions) ;;
  ret (gather_object accelerator results_dict).

(** Lines 75-112: the local dataset is built from the shard (line 76),
    which is a [Dataset], then worked on. *)
Definition evaluate_local (accelerator : Accelerator) (model : Model) (judge : Judge)
    (tokenizer : Tokenizer) : M (list ResultRow) :=
  cb <- get_self ;;
  let prompts := split_between_processes accelerator (prompt_dataset cb) in
  local_dataset <- lift (dataset_from_dict (DatasetObject prompts)) ;;
  evaluate_shard accelerator model judge tokenizer local_dataset.

(** [on_evaluate] (lines 70-140). *)
Definition on_evaluate (accelerator : Accelerator) (model : Model) (judge : Judge)
    (wandb_available : bool) (tokenizer : Tokenizer) : M unit :=
  results_dict <- evaluate_local accelerator model judge tokenizer ;;
  if is_main_process accelerator then aggregate wandb_available results_dict
  else ret tt.

(** ** Vocabulary of the statements *)

(** Number of rows whose judgment is [0]: the policy was preferred. *)
Definition policy_wins (rows : list ResultRow) : nat :=
  count_occ Z.eq_dec (map results rows) 0%Z.

(** [m] maintains [R] when [R] relates the state before [m] to the state
    after it, however [m] ends. *)
Definition maintains (R : World -> World -> Prop) {A} (m : M A) : Prop :=
  forall w, R w (snd (m w)).

(** The state after appending [texts] to [self.ref_completions] and
    [cs] to the trace. *)
Definition advance (texts : list string) (cs : list Call) (w : World) : World :=
  {| self := {| prompt_dataset := prompt_dataset (self w);
                self_completions := self_completions (self w);
                ref_completions := ref_completions (self w) ++ texts |};
     trainer := trainer w;
     calls := calls w ++ cs |}.

(** The same trainer with its model put in training mode or not. *)
Definition in_mode (b : bool) (w : World) : World :=
  {| self := self w;
     trainer := {| training := b;
                   global_step := global_step (trainer w);
                   log_history := log_history (trainer w) |};
     calls := calls w |}.

(** *** One pass of the generation loop

    Both loop bodies (lines 52-64 and 85-96) turn a conversation into a
    text in the same way. *)

(** The conversation handed to the chat template. *)
Definition generation_input (messages : Conversation) : Conversation :=
  match getitem_last messages with
  | Ok final =>
      if String.eqb (role final) assistant then drop_last messages else messages
  | Raise _ => messages
  end.

(** The text recorded for a conversation. *)
Definition completion_text (model : Model) (tokenizer : Tokenizer)
    (messages : Conversation) : outcome string :=
  let tokenized_prompt := apply_chat_template tokenizer (generation_input messages) in
  getitem
    (map (decode tokenizer)
         (map (slice_from (List.length tokenized_prompt))
              (generate model tokenized_prompt)))
    0.

(** The calls one pass makes. *)
Definition generation_calls (tokenizer : Tokenizer) (messages : Conversation)
  : list Call :=
  [ApplyChatTemplate (generation_input messages);
   Generate (apply_chat_template tokenizer (generation_input messages))].

(** [messages] has a last turn and the model returns at least one row
    for it, whose decoded continuation is [s]. *)
Definition generates (model : Model) (tokenizer : Tokenizer)
    (messages : Conversation) (s : string) : Prop :=
  messages <> [] /\ completion_text model tokenizer messages = Ok s.

(** *** Aggregation (lines 114-140) *)

Definition win_rate_logs (win_rate : Q) : Logs :=
  [("win_rate"%string, VFloat win_rate)].

Definition wandb_logs (win_rate : Q) (step : Z) : Logs :=
  [("eval_win_rate"%string, VFloat win_rate); ("train/global_step"%string, VInt step)].

(** One table row per judged row: prompt, policy completion, reference
    completion, chosen index. *)
Definition table_rows (rows : list ResultRow) : list (list Cell) :=
  map (fun r => [CStr (prompts r); CStr (fst (completions r));
                 CStr (snd (completions r)); CInt (results r)]) rows.

Definition table_logs (rows : list ResultRow) : Logs :=
  [("winrate_generations"%string, VTable table_columns (table_rows rows))].

(** The state after logging [win_rate], and the table when the tracking
    backend is present: the history gains the scalar entry only. *)
Definition after_logging (wandb_available : bool) (win_rate : Q)
    (rows : list ResultRow) (w : World) : World :=
  {| self := self w;
     trainer := {| training := training (trainer w);
                   global_step := global_step (trainer w);
                   log_history := log_history (trainer w) ++ [win_rate_logs win_rate] |};
     calls := calls w
              ++ TrainerLog (win_rate_logs win_rate)
              :: (if wandb_available
                  then [WandbLog (wandb_logs win_rate (global_step (trainer w)));
                        TrainerLog (table_logs rows)]
                  else []) |}.

(** *** What the hooks leave unchanged *)

(** The callback object is the same. *)
Definition same_self (w w' : World) : Prop := self w' = self w.

(** The prompt dataset is the same and the reference completions were
    only appended to. *)
Definition refs_extended (w w' : World) : Prop :=
  prompt_dataset (self w') = prompt_dataset (self w) /\
  exists added, ref_completions (self w') = ref_completions (self w) ++ added.

Definition is_log_call (c : Call) : Prop :=
  match c with
  | TrainerLog _ | WandbLog _ => True
  | _ => False
  end.

(** The trace gained calls to the loggers only. *)
Definition only_logged (w w' : World) : Prop :=
  exists later, calls w' = calls w ++ later /\ Forall is_log_call later.

(** The model is in the same mode. *)
Definition same_mode (w w' : World) : Prop :=
  training (trainer w') = training (trainer w).

Definition is_generation_call (c : Call) : Prop :=
  match c with
  | ApplyChatTemplate _ | Generate _ => True
  | _ => False
  end.

(** The trace gained calls to the chat template and the model only. *)
Definition only_generated (w w' : World) : Prop :=
  exists gen, calls w' = calls w ++ gen /\ Forall is_generation_call gen.

(** Nothing was logged: the history and the step are the same, and the
    trace gained no call to a logger. *)
Definition nothing_logged (w w' : World) : Prop :=
  log_history (trainer w') = log_history (trainer w) /\
  global_step (trainer w') = global_step (trainer w) /\
  exists added, calls w' = calls w ++ added /\ Forall (fun c => ~ is_log_call c) added.

(** ** A concrete run *)

Module Example.

Definition turn (r c : string) : Turn := {| role := r; content := c |}.

(** One token per turn: the length of its content. *)
Definition tokenizer : Tokenizer :=
  {| apply_chat_template :=
       fun messages => map (fun t => Z.of_nat (String.length (content t))) messages;
     decode :=
       fun ids => string_of_list_ascii (map (fun z => Ascii.ascii_of_nat (Z.to_nat z)) ids) |}.

(** Decoder-only models: the output row is the input followed by the
    continuation. *)
Definition reference_model : Model :=
  {| generate := fun input_ids => [input_ids ++ [104; 105]%Z] |}.

Definition policy_model : Model :=
  {| generate := fun input_ids => [input_ids ++ [111; 107]%Z] |}.

(** Prefers the first completion when the prompt is not ["p1"]. *)
Definition judge : Judge :=
  {| judge_batch :=
       fun ps cs => map (fun p => if String.eqb p "p1" then 1%Z else 0%Z) ps |}.

(** A run on one process: the shard is the dataset, and gathering
    returns the local rows. *)
Definition single_process : Accelerator :=
  {| split_between_processes := fun inputs => inputs;
     gather_object := fun rows => rows;
     is_main_process := true |}.

(** The shard [split_between_processes] yields for a [Dataset] with
    [apply_padding=True] on process [process_index] out of
    [num_processes]: consecutive index ranges whose sizes differ by at
    most one, clipped to the dataset (a process past the data gets the
    last row) and padded with the last index to one more than the
    quotient.  A single process gets the dataset as it is, and a dataset
    without rows is returned as it is. *)
Definition padded_shard {A} (num_processes process_index : nat) (inputs : list A)
  : list A :=
  if num_processes =? 1 then inputs
  else
    match inputs with
    | [] => inputs
    | _ =>
        let n := List.length inputs in
        let num_samples_per_process := n / num_processes in
        let num_extras := n mod num_processes in
        let start_index :=
          process_index * num_samples_per_process + Nat.min process_index num_extras in
        let end_index :=
          start_index + num_samples_per_process
          + (if process_index <? num_extras then 1 else 0) in
        let start_index := if n <=? start_index then n - 1 else start_index in
        let end_index := if n <? end_index then n else end_index in
        let result_idcs := seq start_index (end_index - start_index) in
        let result_idcs :=
          result_idcs
          ++ repeat (end_index - 1)
               (num_samples_per_process + 1 - List.length result_idcs) in
        flat_map (fun i => firstn 1 (skipn i inputs)) result_idcs
    end.

(** The main process of a run on two processes; [others] are the rows
    the second process contributes to the gather. *)
Definition first_of_two (others : list ResultRow) : Accelerator :=
  {| split_between_processes := padded_shard 2 0;
     gather_object := fun rows => rows ++ others;
     is_main_process := true |}.

Definition dataset : list PromptRow :=
  [ {| prompt := "p0"; chosen := [turn "user" "hello"; turn "assistant" "gold"] |};
    {| prompt := "p1"; chosen := [turn "user" "bye"] |};
    {| prompt := "p2"; chosen := [turn "system" "be brief"; turn "user" "why"] |} ]%string.

Definition fresh (d : list PromptRow) : World :=
  {| self := init d;
     trainer := {| training := true; global_step := 0%Z; log_history := [] |};
     calls := [] |}.

(** The state once the reference completions exist. *)
Definition trained : World :=
  snd (on_train_begin single_process reference_model tokenizer (fresh dataset)).

End Example.

(** ** Facts about the Python primitives *)

Section PyFacts.

Context {A : Type}.

Lemma getitem_last_snoc (l : list A) (x : A) :
  getitem_last (l ++ [x]) = Ok x.
Proof.
  destruct l as [|y l]; simpl; [reflexivity|].
  f_equal. apply last_last.
Qed.

Lemma drop_last_snoc (l : list A) (x : A) : drop_last (l ++ [x]) = l.
Proof. unfold drop_last. apply removelast_last. Qed.

Lemma snoc_cases (l : list A) : l = [] \/ exists l' x, l = l' ++ [x].
Proof.
  destruct l as [|a l]; [left; reflexivity|right].
  destruct (@exists_last A (a :: l)) as [l' [x E]]; [discriminate|eauto].
Qed.

Lemma slice_from_nth (n : nat) (l : list A) (j : nat) :
  nth_error (slice_from n l) j = nth_error l (n + j).
Proof. unfold slice_from. apply nth_error_skipn. Qed.

Lemma slice_from_app (p new : list A) : slice_from (List.length p) (p ++ new) = new.
Proof.
  unfold slice_from. rewrite skipn_app, skipn_all, Nat.sub_diag. reflexivity.
Qed.

Lemma skipn_nth_cons (rows : list A) (a : nat) (x : A) :
  nth_error rows a = Some x -> skipn a rows = x :: skipn (S a) rows.
Proof.
  revert a. induction rows as [|y rows IH]; intros [|a] H; try discriminate.
  - inversion H. reflexivity.
  - simpl in H. apply IH in H. exact H.
Qed.

End PyFacts.

Lemma select_range_empty (n : nat) : select_range (from_list []) n = Ok NoColumns.
Proof. reflexivity. Qed.

Lemma select_range_within (rows : list ResultRow) (n : nat) :
  rows <> [] -> n <= List.length rows ->
  select_range (from_list rows) n = Ok (Table (firstn n rows)).
Proof.
  intros Hne Hn. destruct rows as [|r rows]; [contradiction|].
  unfold from_list, select_range.
  destruct (Nat.leb_spec n (List.length (r :: rows))); [reflexivity|lia].
Qed.

Lemma select_range_short (rows : list ResultRow) (n : nat) :
  rows <> [] -> List.length rows < n ->
  select_range (from_list rows) n = Raise IndexError.
Proof.
  intros Hne Hn. destruct rows as [|r rows]; [contradiction|].
  unfold from_list, select_range.
  destruct (Nat.leb_spec n (List.length (r :: rows))); [lia|reflexivity].
Qed.

(** ** The win rate (line 118) *)

Lemma sum_from (l : list Z) (a : Z) : fold_left Z.add l a = (a + sum l)%Z.
Proof.
  unfold sum. revert a. induction l as [|x l IH]; intros a; simpl; [lia|].
  rewrite IH, (IH x). lia.
Qed.

Lemma sum_cons (x : Z) (l : list Z) : sum (x :: l) = (x + sum l)%Z.
Proof. unfold sum at 1. simpl. apply sum_from. Qed.

Lemma sum_indicator (rs : list Z) :
  sum (map (fun r => int_of_bool (r =? 0)%Z) rs)
  = Z.of_nat (count_occ Z.eq_dec rs 0%Z).
Proof.
  induction rs as [|r rs IH]; [reflexivity|].
  simpl map. rewrite sum_cons, IH. simpl count_occ.
  destruct (Z.eq_dec r 0) as [->|Hne].
  - change (int_of_bool (0 =? 0)%Z) with 1%Z. lia.
  - destruct (Z.eqb_spec r 0); [contradiction|].
    change (int_of_bool false) with 0%Z. lia.
Qed.

Lemma policy_wins_le (rows : list ResultRow) : policy_wins rows <= List.length rows.
Proof.
  unfold policy_wins. rewrite <- (length_map results rows).
  apply count_occ_bound.
Qed.

Lemma policy_wins_all (rows : list ResultRow) :
  Forall (fun r => results r = 0%Z) rows -> policy_wins rows = List.length rows.
Proof.
  unfold policy_wins. induction 1 as [|r rows Hr _ IH]; [reflexivity|].
  simpl. rewrite Hr. simpl. rewrite IH. reflexivity.
Qed.

Lemma policy_wins_none (rows : list ResultRow) :
  Forall (fun r => results r = 1%Z) rows -> policy_wins rows = 0.
Proof.
  unfold policy_wins. induction 1 as [|r rows Hr _ IH]; [reflexivity|].
  simpl. rewrite Hr. simpl. exact IH.
Qed.

Lemma compute_win_rate_eq (rows : list ResultRow) :
  rows <> [] ->
  compute_win_rate rows
  = Ok (Qdiv (inject_Z (Z.of_nat (policy_wins rows)))
             (inject_Z (Z.of_nat (List.length rows)))).
Proof.
  intros Hne. unfold compute_win_rate, truediv.
  rewrite sum_indicator. fold (policy_wins rows).
  destruct (Z.eqb_spec (Z.of_nat (List.length rows)) 0) as [E|_]; [|reflexivity].
  destruct rows; [contradiction|simpl in E; lia].
Qed.

Lemma fraction_bounds (a b : nat) :
  a <= b -> 0 < b ->
  (0 <= Qdiv (inject_Z (Z.of_nat a)) (inject_Z (Z.of_nat b)) <= 1)%Q.
Proof.
  intros Hab Hb.
  assert (Hpos : (0 < inject_Z (Z.of_nat b))%Q).
  { change 0%Q with (inject_Z 0). rewrite <- Zlt_Qlt. lia. }
  split.
  - apply Qle_shift_div_l; [exact Hpos|].
    rewrite Qmult_0_l. change 0%Q with (inject_Z 0). rewrite <- Zle_Qle. lia.
  - apply Qle_shift_div_r; [exact Hpos|].
    rewrite Qmult_1_l. rewrite <- Zle_Qle. lia.
Qed.

(** ** Reasoning about monadic code *)

Lemma bind_Ok {A B} (m : M A) (k : A -> M B) (w w' : World) (a : A) :
  m w = (Ok a, w') -> bind m k w = k a w'.
Proof. intros H. unfold bind. rewrite H. reflexivity. Qed.

Lemma bind_Raise {A B} (m : M A) (k : A -> M B) (w w' : World) (e : exn) :
  m w = (Raise e, w') -> bind m k w = (Raise e, w').
Proof. intros H. unfold bind. rewrite H. reflexivity. Qed.

(** A relation between the state before and after that every step of a
    computation maintains is maintained by the whole computation, however
    it ends. *)
Section Frames.

Variable R : World -> World -> Prop.
Hypothesis R_refl : forall w, R w w.
Hypothesis R_trans : forall w1 w2 w3, R w1 w2 -> R w2 w3 -> R w1 w3.

Lemma maintains_ret {A} (a : A) : maintains R (ret a).
Proof. intros w. apply R_refl. Qed.

Lemma maintains_lift {A} (o : outcome A) : maintains R (lift o).
Proof. intros w. apply R_refl. Qed.

Lemma maintains_get_self : maintains R get_self.
Proof. intros w. apply R_refl. Qed.

Lemma maintains_get_trainer : maintains R get_trainer.
Proof. intros w. apply R_refl. Qed.

Lemma maintains_bind {A B} (m : M A) (k : A -> M B) :
  maintains R m -> (forall a, maintains R (k a)) -> maintains R (bind m k).
Proof.
  intros Hm Hk w. unfold bind. specialize (Hm w).
  destruct (m w) as [[a|e] w1]; simpl in *; [|exact Hm].
  eapply R_trans; [exact Hm|apply Hk].
Qed.

Lemma maintains_if {A} (b : bool) (m1 m2 : M A) :
  maintains R m1 -> maintains R m2 -> maintains R (if b then m1 else m2).
Proof. destruct b; auto. Qed.

Lemma maintains_for_loop {A S} (xs : list A) (body : S -> A -> M S) (s : S) :
  (forall s x, maintains R (body s x)) -> maintains R (for_loop xs body s).
Proof.
  intros Hbody. revert s. induction xs as [|x xs IH]; intros s; simpl.
  - apply maintains_ret.
  - apply maintains_bind; [apply Hbody|]. intros s'. apply IH.
Qed.

End Frames.

Lemma advance_nil (w : World) : advance [] [] w = w.
Proof.
  destruct w as [[d c r] t cs]. unfold advance. simpl.
  rewrite !app_nil_r. reflexivity.
Qed.

Lemma advance_advance (t1 t2 : list string) (c1 c2 : list Call) (w : World) :
  advance t2 c2 (advance t1 c1 w) = advance (t1 ++ t2) (c1 ++ c2) w.
Proof. unfold advance. simpl. rewrite !app_assoc. reflexivity. Qed.

(** ** One pass of the generation loop *)

Lemma generation_input_snoc (init : Conversation) (t : Turn) :
  generation_input (init ++ [t])
  = if String.eqb (role t) assistant then init else init ++ [t].
Proof.
  unfold generation_input. rewrite getitem_last_snoc, drop_last_snoc. reflexivity.
Qed.

Lemma completion_text_row (model : Model) (tokenizer : Tokenizer)
    (messages : Conversation) (g : list token) (rest : list (list token)) :
  generate model (apply_chat_template tokenizer (generation_input messages)) = g :: rest ->
  completion_text model tokenizer messages
  = Ok (decode tokenizer
          (slice_from
             (List.length (apply_chat_template tokenizer (generation_input messages))) g)).
Proof. intros H. unfold completion_text. rewrite H. reflexivity. Qed.

Section Steps.

Variable model : Model.
Variable tokenizer : Tokenizer.

Lemma ref_completion_step_empty (w : World) :
  ref_completion_step model tokenizer tt [] w = (Raise IndexError, w).
Proof. reflexivity. Qed.

Lemma policy_completion_step_empty (batch : list (string * string)) (i : nat) (w : World) :
  policy_completion_step model tokenizer batch (i, []) w = (Raise IndexError, w).
Proof. reflexivity. Qed.

Lemma ref_completion_step_run (messages : Conversation) (w : World) :
  messages <> [] ->
  ref_completion_step model tokenizer tt messages w
  = match completion_text model tokenizer messages with
    | Ok s => (Ok tt, advance [s] (generation_calls tokenizer messages) w)
    | Raise e => (Raise e, advance [] (generation_calls tokenizer messages) w)
    end.
Proof.
  intros Hne. destruct (snoc_cases messages) as [->|[init [t ->]]]; [contradiction|].
  unfold ref_completion_step, completion_text, generation_calls.
  rewrite generation_input_snoc.
  unfold bind at 1. unfold lift at 1. rewrite getitem_last_snoc, drop_last_snoc.
  set (input := if String.eqb (role t) assistant then init else init ++ [t]).
  unfold call_apply_chat_template, call_generate, record_call, bind, ret, lift.
  simpl.
  destruct (getitem _ 0) as [s|e]; simpl.
  - unfold append_ref_completion, advance, with_self, with_calls. simpl.
    rewrite <- app_assoc. reflexivity.
  - unfold advance, with_calls. simpl. rewrite <- app_assoc, app_nil_r.
    destruct w as [[d c r] t' cs]. reflexivity.
Qed.

Lemma policy_completion_step_run (batch : list (string * string)) (i : nat)
    (messages : Conversation) (w : World) :
  messages <> [] ->
  policy_completion_step model tokenizer batch (i, messages) w
  = match completion_text model tokenizer messages with
    | Ok s =>
        match getitem (ref_completions (self w)) i with
        | Ok r => (Ok (batch ++ [(s, r)]),
                   advance [] (generation_calls tokenizer messages) w)
        | Raise e => (Raise e, advance [] (generation_calls tokenizer messages) w)
        end
    | Raise e => (Raise e, advance [] (generation_calls tokenizer messages) w)
    end.
Proof.
  intros Hne. destruct (snoc_cases messages) as [->|[init [t ->]]]; [contradiction|].
  unfold policy_completion_step, completion_text, generation_calls.
  rewrite generation_input_snoc.
  unfold bind at 1. unfold lift at 1. rewrite getitem_last_snoc, drop_last_snoc.
  set (input := if String.eqb (role t) assistant then init else init ++ [t]).
  unfold call_apply_chat_template, call_generate, record_call, bind, ret, lift,
    get_self.
  simpl.
  assert (E : with_calls
                ((calls w ++ [ApplyChatTemplate input])
                 ++ [Generate (apply_chat_template tokenizer input)]) 
                (with_calls (calls w ++ [ApplyChatTemplate input]) w)
              = advance [] [ApplyChatTemplate input;
                            Generate (apply_chat_template tokenizer input)] w).
  { unfold advance, with_calls. simpl. rewrite <- app_assoc, app_nil_r.
    destruct w as [[d c r] t' cs]. reflexivity. }
  destruct (getitem _ 0) as [s|e]; simpl.
  - rewrite E. destruct (getitem (ref_completions (self w)) i); reflexivity.
  - rewrite E. reflexivity.
Qed.

End Steps.

(** ** The two loops and the hooks, when every generation succeeds *)

Section Loops.

Variable model : Model.
Variable tokenizer : Tokenizer.

Lemma ref_loop_run (convs : list Conversation) (texts : list string) (w : World) :
  Forall2 (generates model tokenizer) convs texts ->
  for_loop convs (ref_completion_step model tokenizer) tt w
  = (Ok tt, advance texts (flat_map (generation_calls tokenizer) convs) w).
Proof.
  intros H. revert w. induction H as [|m s convs texts [Hne Hs] _ IH]; intros w.
  - simpl. unfold ret. rewrite advance_nil. reflexivity.
  - simpl for_loop. erewrite bind_Ok.
    2:{ rewrite ref_completion_step_run by exact Hne. rewrite Hs. reflexivity. }
    rewrite IH, advance_advance. reflexivity.
Qed.

Lemma policy_loop_run (convs : list Conversation) (texts : list string)
    (a : nat) (batch : list (string * string)) (w : World) :
  Forall2 (generates model tokenizer) convs texts ->
  a + List.length convs <= List.length (ref_completions (self w)) ->
  for_loop (combine (seq a (List.length convs)) convs)
           (policy_completion_step model tokenizer) batch w
  = (Ok (batch ++ combine texts
                    (firstn (List.length convs) (skipn a (ref_completions (self w))))),
     advance [] (flat_map (generation_calls tokenizer) convs) w).
Proof.
  intros H. revert a batch w.
  induction H as [|m s convs texts [Hne Hs] _ IH]; intros a batch w Hlen.
  - simpl. unfold ret. rewrite advance_nil, app_nil_r. reflexivity.
  - simpl in Hlen.
    destruct (nth_error (ref_completions (self w)) a) as [r|] eqn:Er.
    2:{ apply nth_error_None in Er. lia. }
    cbn [List.length seq combine for_loop]. erewrite bind_Ok.
    2:{ rewrite policy_completion_step_run by exact Hne. rewrite Hs.
        unfold getitem. rewrite Er. reflexivity. }
    rewrite IH.
    2:{ simpl. rewrite app_nil_r. lia. }
    rewrite advance_advance. simpl ref_completions. rewrite app_nil_r.
    rewrite (skipn_nth_cons _ _ _ Er). simpl.
    rewrite <- app_assoc. reflexivity.
Qed.

Variable accelerator : Accelerator.

Lemma on_train_begin_run (texts : list string) (w : World) :
  let shard := split_between_processes accelerator (prompt_dataset (self w)) in
  shard <> [] ->
  Forall2 (generates model tokenizer) (map chosen shard) texts ->
  on_train_begin accelerator model tokenizer w
  = (Ok tt,
     in_mode true
       (advance texts (flat_map (generation_calls tokenizer) (map chosen shard)) w)).
Proof.
  intros shard Hne H. unfold on_train_begin.
  unfold bind at 1. unfold get_self at 1. fold shard.
  destruct shard as [|row rows] eqn:Eshard; [contradiction|].
  unfold bind at 1. unfold lift at 1, getitem at 1. simpl nth_error.
  unfold bind at 1. unfold set_training at 1. fold (in_mode false w).
  erewrite bind_Ok by (apply ref_loop_run; exact H).
  reflexivity.
Qed.

Lemma on_train_begin_empty_shard (w : World) :
  split_between_processes accelerator (prompt_dataset (self w)) = [] ->
  on_train_begin accelerator model tokenizer w = (Raise IndexError, w).
Proof.
  intros E. unfold on_train_begin, bind, get_self. rewrite E. reflexivity.
Qed.

Variable judge : Judge.

(** What lines 78-112 do on a local dataset: the judge receives the
    prompts in order and, at every position, the policy text followed by
    the reference completion of that index. *)
Lemma evaluate_shard_run (local_dataset : list PromptRow) (texts : list string)
    (w : World) :
  let ps := map prompt local_dataset in
  let cs := combine texts
              (firstn (List.length local_dataset) (ref_completions (self w))) in
  Forall2 (generates model tokenizer) (map chosen local_dataset) texts ->
  List.length local_dataset <= List.length (ref_completions (self w)) ->
  evaluate_shard accelerator model judge tokenizer local_dataset w
  = (match from_dict (judge_batch judge ps cs) ps cs with
     | Ok rows => Ok (gather_object accelerator rows)
     | Raise e => Raise e
     end,
     in_mode true
       (advance []
          (flat_map (generation_calls tokenizer) (map chosen local_dataset)
           ++ [JudgeBatch ps cs]) w)).
Proof.
  intros ps cs H Hlen. unfold evaluate_shard. fold ps.
  unfold bind at 1. unfold set_training at 1. fold (in_mode false w).
  unfold enumerate.
  erewrite bind_Ok.
  2:{ apply policy_loop_run; [exact H|].
      rewrite length_map. simpl. exact Hlen. }
  rewrite length_map. simpl skipn. simpl app. fold cs.
  unfold bind at 1. unfold set_training at 1.
  unfold call_judge_batch, record_call, bind, ret, lift.
  simpl.
  destruct (from_dict _ _ _); f_equal;
    unfold in_mode, advance, with_calls, with_trainer; simpl;
    rewrite <- app_assoc; reflexivity.
Qed.

End Loops.

(** Converse: a loop or hook that returned normally went through every
    conversation, and every generation succeeded. *)
Section Completion.

Variable model : Model.
Variable tokenizer : Tokenizer.

Lemma ref_loop_completed (convs : list Conversation) (w w' : World) :
  for_loop convs (ref_completion_step model tokenizer) tt w = (Ok tt, w') ->
  exists texts,
    Forall2 (generates model tokenizer) convs texts /\
    w' = advance texts (flat_map (generation_calls tokenizer) convs) w.
Proof.
  revert w. induction convs as [|m convs IH]; intros w H.
  - simpl in H. unfold ret in H. inversion H; subst w'.
    exists []. split; [constructor|]. rewrite advance_nil. reflexivity.
  - simpl for_loop in H. unfold bind in H.
    destruct m as [|t0 m0] eqn:Em.
    { rewrite ref_completion_step_empty in H. discriminate. }
    rewrite <- Em in *.
    assert (Hne : m <> []) by (rewrite Em; discriminate).
    rewrite (ref_completion_step_run _ _ _ _ Hne) in H.
    destruct (completion_text model tokenizer m) as [s|e] eqn:Es; [|discriminate].
    apply IH in H. destruct H as [texts [HF ->]].
    exists (s :: texts). split.
    + constructor; [split; assumption|exact HF].
    + rewrite advance_advance. reflexivity.
Qed.

Lemma on_train_begin_completed (accelerator : Accelerator) (w w' : World) :
  on_train_begin accelerator model tokenizer w = (Ok tt, w') ->
  let shard := split_between_processes accelerator (prompt_dataset (self w)) in
  shard <> [] /\
  exists texts,
    Forall2 (generates model tokenizer) (map chosen shard) texts /\
    w' = in_mode true
           (advance texts (flat_map (generation_calls tokenizer) (map chosen shard)) w).
Proof.
  intros H shard.
  destruct shard as [|row rows] eqn:Eshard.
  { rewrite on_train_begin_empty_shard in H by exact Eshard. discriminate. }
  split; [discriminate|].
  unfold on_train_begin in H.
  unfold bind at 1 in H. unfold get_self at 1 in H. fold shard in H.
  rewrite Eshard in H.
  unfold bind at 1 in H. unfold lift at 1, getitem at 1 in H. simpl nth_error in H.
  unfold bind at 1 in H. unfold set_training at 1 in H. fold (in_mode false w) in H.
  unfold bind at 1 in H.
  destruct (for_loop (map chosen (row :: rows)) (ref_completion_step model tokenizer) tt _)
    as [[[]|e] w1] eqn:Eloop; [|discriminate].
  apply ref_loop_completed in Eloop. destruct Eloop as [texts [HF ->]].
  exists texts. split; [exact HF|].
  unfold set_training in H. inversion H. reflexivity.
Qed.

End Completion.

(** ** Aggregation (lines 114-140) *)

Lemma zip4_columns (rows : list ResultRow) :
  map (fun '(p, pol, rf, index) => [CStr p; CStr pol; CStr rf; CInt index])
      (zip4 (map prompts rows)
            (map (fun c => fst c) (map completions rows))
            (map (fun c => snd c) (map completions rows))
            (map results rows))
  = table_rows rows.
Proof.
  induction rows as [|r rows IH]; [reflexivity|].
  simpl. rewrite IH. reflexivity.
Qed.

Lemma pop_snoc {A} (l : list A) (x : A) : pop (l ++ [x]) = Ok l.
Proof.
  unfold pop. rewrite removelast_last. destruct l; reflexivity.
Qed.

Lemma aggregate_empty (wandb_available : bool) (w : World) :
  aggregate wandb_available [] w = (Raise KeyError, w).
Proof. reflexivity. Qed.

Lemma aggregate_short (wandb_available : bool) (gathered : list ResultRow) (w : World) :
  gathered <> [] ->
  List.length gathered < List.length (prompt_dataset (self w)) ->
  aggregate wandb_available gathered w = (Raise IndexError, w).
Proof.
  intros Hne Hn. unfold aggregate.
  unfold bind at 1. unfold get_self at 1.
  unfold bind at 1. unfold lift at 1. rewrite select_range_short by assumption.
  reflexivity.
Qed.

Lemma aggregate_run (wandb_available : bool) (gathered : list ResultRow) (w : World) :
  let n := List.length (prompt_dataset (self w)) in
  gathered <> [] ->
  n <= List.length gathered ->
  aggregate wandb_available gathered w
  = match compute_win_rate (firstn n gathered) with
    | Ok q => (Ok tt, after_logging wandb_available q (firstn n gathered) w)
    | Raise e => (Raise e, w)
    end.
Proof.
  intros n Hne Hn. unfold aggregate.
  unfold bind at 1. unfold get_self at 1. fold n.
  unfold bind at 1. unfold lift at 1. rewrite select_range_within by assumption.
  unfold bind at 1. unfold lift at 1. unfold win_rate_of.
  destruct (compute_win_rate (firstn n gathered)) as [q|e]; [|reflexivity].
  fold (win_rate_logs q).
  destruct wandb_available.
  - unfold trainer_log, wandb_log, log_history_pop, record_call, get_trainer,
      set_log_history, column, bind, ret, lift. simpl.
    rewrite zip4_columns. fold (table_logs (firstn n gathered)).
    rewrite pop_snoc. unfold after_logging, with_trainer, with_calls. simpl.
    fold (wandb_logs q (global_step (trainer w))).
    rewrite <- !app_assoc. reflexivity.
  - unfold trainer_log, record_call, get_trainer, set_log_history, bind, ret.
    reflexivity.
Qed.

(** ** What the hooks leave unchanged *)

Lemma same_self_refl (w : World) : same_self w w.
Proof. reflexivity. Qed.

Lemma same_self_trans (w1 w2 w3 : World) :
  same_self w1 w2 -> same_self w2 w3 -> same_self w1 w3.
Proof. unfold same_self. congruence. Qed.

Lemma refs_extended_refl (w : World) : refs_extended w w.
Proof. split; [reflexivity|]. exists []. rewrite app_nil_r. reflexivity. Qed.

Lemma refs_extended_trans (w1 w2 w3 : World) :
  refs_extended w1 w2 -> refs_extended w2 w3 -> refs_extended w1 w3.
Proof.
  intros [Hd1 [a1 Hr1]] [Hd2 [a2 Hr2]]. split; [congruence|].
  exists (a1 ++ a2). rewrite Hr2, Hr1, app_assoc. reflexivity.
Qed.

Lemma only_logged_refl (w : World) : only_logged w w.
Proof. exists []. rewrite app_nil_r. split; [reflexivity|constructor]. Qed.

Lemma only_logged_trans (w1 w2 w3 : World) :
  only_logged w1 w2 -> only_logged w2 w3 -> only_logged w1 w3.
Proof.
  intros [l1 [H1 F1]] [l2 [H2 F2]]. exists (l1 ++ l2). split.
  - rewrite H2, H1, app_assoc. reflexivity.
  - apply Forall_app. split; assumption.
Qed.

(** Decomposes a computation along its binds; the remaining goals are
    about the primitive state changes. *)
Ltac frame Hrefl Htrans :=
  repeat first
    [ apply (maintains_ret _ Hrefl)
    | apply (maintains_lift _ Hrefl)
    | apply (maintains_get_self _ Hrefl)
    | apply (maintains_get_trainer _ Hrefl)
    | apply (maintains_for_loop _ Hrefl Htrans); intros ? ?
    | apply (maintains_bind _ Htrans); [|intros ?]
    | apply maintains_if ].

Lemma policy_completion_step_same_self (model : Model) (tokenizer : Tokenizer)
    (batch : list (string * string)) (im : nat * Conversation) :
  maintains same_self (policy_completion_step model tokenizer batch im).
Proof.
  destruct im as [i messages]. unfold policy_completion_step.
  unfold call_apply_chat_template, call_generate.
  frame same_self_refl same_self_trans; intros w; reflexivity.
Qed.

Lemma evaluate_local_same_self (accelerator : Accelerator) (model : Model)
    (judge : Judge) (tokenizer : Tokenizer) :
  maintains same_self (evaluate_local accelerator model judge tokenizer).
Proof.
  unfold evaluate_local, call_judge_batch.
  frame same_self_refl same_self_trans;
    try apply policy_completion_step_same_self; intros w; reflexivity.
Qed.

Lemma aggregate_same_self (wandb_available : bool) (gathered : list ResultRow) :
  maintains same_self (aggregate wandb_available gathered).
Proof.
  unfold aggregate, trainer_log, wandb_log, log_history_pop.
  frame same_self_refl same_self_trans; intros w; reflexivity.
Qed.

Lemma on_evaluate_same_self (accelerator : Accelerator) (model : Model)
    (judge : Judge) (wandb_available : bool) (tokenizer : Tokenizer) :
  maintains same_self (on_evaluate accelerator model judge wandb_available tokenizer).
Proof.
  unfold on_evaluate.
  apply (maintains_bind _ same_self_trans); [apply evaluate_local_same_self|].
  intros gathered. apply maintains_if; [apply aggregate_same_self|].
  apply (maintains_ret _ same_self_refl).
Qed.

Lemma on_train_begin_refs_extended (accelerator : Accelerator) (model : Model)
    (tokenizer : Tokenizer) :
  maintains refs_extended (on_train_begin accelerator model tokenizer).
Proof.
  unfold on_train_begin, ref_completion_step, call_apply_chat_template, call_generate.
  frame refs_extended_refl refs_extended_trans;
    try (intros w; apply refs_extended_refl).
  intros w. split; [reflexivity|]. eexists. reflexivity.
Qed.

Lemma aggregate_only_logged (wandb_available : bool) (gathered : list ResultRow) :
  maintains only_logged (aggregate wandb_available gathered).
Proof.
  unfold aggregate, trainer_log, wandb_log, log_history_pop.
  frame only_logged_refl only_logged_trans;
    try (intros w; apply only_logged_refl);
    intros w; eexists; (split; [reflexivity|]); repeat constructor.
Qed.

(** ** List facts used by the statements below *)

Lemma Forall2_map_left {A B C} (f : A -> B) (P : B -> C -> Prop)
    (l : list A) (l' : list C) :
  Forall2 P (map f l) l' <-> Forall2 (fun a c => P (f a) c) l l'.
Proof.
  revert l'. induction l as [|a l IH]; intros l'; simpl; split; intros H;
    inversion H; subst; constructor; try assumption; apply IH; assumption.
Qed.

Lemma Forall2_nth_error_left {A B} (P : A -> B -> Prop) (l : list A) (l' : list B)
    (i : nat) (a : A) :
  Forall2 P l l' -> nth_error l i = Some a ->
  exists b, nth_error l' i = Some b /\ P a b.
Proof.
  intros H. revert i. induction H as [|x y l l' Hxy _ IH]; intros i Hi.
  - destruct i; discriminate.
  - destruct i as [|i]; simpl in *.
    + inversion Hi; subst. eauto.
    + apply IH. exact Hi.
Qed.

Lemma nth_error_combine {A B} (l : list A) (l' : list B) (i : nat) (a : A) (b : B) :
  nth_error l i = Some a -> nth_error l' i = Some b ->
  nth_error (combine l l') i = Some (a, b).
Proof.
  revert l' i. induction l as [|x l IH]; intros [|y l'] [|i] Ha Hb;
    try discriminate; simpl in *.
  - inversion Ha; inversion Hb; reflexivity.
  - apply IH; assumption.
Qed.

Lemma nth_error_firstn_lt {A} (l : list A) (n i : nat) :
  i < n -> nth_error (firstn n l) i = nth_error l i.
Proof.
  revert n i. induction l as [|x l IH]; intros [|n] [|i] H; simpl;
    try reflexivity; try lia.
  apply IH. lia.
Qed.

(** ** Properties of the callback *)

(** C1.  For a non-empty list of judged rows the win rate of line 118 is
    the number of judgments equal to [0] divided by the number of
    judgments; it lies between 0 and 1, is 1 when every judgment is [0]
    and 0 when every judgment is [1]. *)
Theorem win_rate_is_fraction_of_policy_wins (rows : list ResultRow) :
  rows <> [] ->
  exists q : Q,
    compute_win_rate rows = Ok q /\
    q = Qdiv (inject_Z (Z.of_nat (count_occ Z.eq_dec (map results rows) 0%Z)))
             (inject_Z (Z.of_nat (List.length rows))) /\
    (0 <= q <= 1)%Q /\
    (Forall (fun r => results r = 0%Z) rows -> (q == 1)%Q) /\
    (Forall (fun r => results r = 1%Z) rows -> (q == 0)%Q).
Proof.
  intros Hne. eexists. split; [apply compute_win_rate_eq; exact Hne|].
  fold (policy_wins rows).
  assert (Hlen : 0 < List.length rows) by (destruct rows; [contradiction|simpl; lia]).
  split; [reflexivity|]. split; [|split].
  - apply fraction_bounds; [apply policy_wins_le|exact Hlen].
  - intros Hall. rewrite (policy_wins_all _ Hall).
    apply Qmult_inv_r. intros E.
    change 0%Q with (inject_Z 0) in E. apply (proj1 (inject_Z_injective _ _)) in E. lia.
  - intros Hall. rewrite (policy_wins_none _ Hall).
    unfold Qdiv. apply Qmult_0_l.
Qed.

(** C1 (witness).  Two judgments, one for each side. *)
Lemma win_rate_is_fraction_of_policy_wins_witness :
  let rows := [ {| results := 0%Z; prompts := "p0"; completions := ("a", "b") |};
                {| results := 1%Z; prompts := "p1"; completions := ("c", "d") |} ]%string in
  rows <> [] /\
  exists q : Q,
    compute_win_rate rows = Ok q /\
    q = Qdiv (inject_Z (Z.of_nat (count_occ Z.eq_dec (map results rows) 0%Z)))
             (inject_Z (Z.of_nat (List.length rows))) /\
    (0 <= q <= 1)%Q /\
    (Forall (fun r => results r = 0%Z) rows -> (q == 1)%Q) /\
    (Forall (fun r => results r = 1%Z) rows -> (q == 0)%Q).
Proof.
  intros rows. split; [discriminate|].
  apply (win_rate_is_fraction_of_policy_wins rows). discriminate.
Defined.

(** C2 (as stated, refuted).  On the first of two processes a dataset of
    three prompts yields a shard of two: [on_train_begin] completes with
    two reference completions, not three. *)
Lemma ref_completions_shorter_than_dataset :
  let run := on_train_begin (Example.first_of_two []) Example.reference_model
               Example.tokenizer (Example.fresh Example.dataset) in
  fst run = Ok tt /\
  List.length (ref_completions (self (snd run))) = 2 /\
  List.length (prompt_dataset (self (snd run))) = 3 /\
  List.length (ref_completions (self (snd run)))
  <> List.length (prompt_dataset (self (snd run))).
Proof.
  vm_compute. repeat split; discriminate.
Qed.

(** C2 (amended).  When [on_train_begin] completes on a freshly
    constructed callback, the reference completions are as many as the
    prompts of the local shard, entry [i] is the text generated for
    prompt [i] of that shard, the dataset is unchanged, and no later
    [on_evaluate] changes either; the length is the dataset's when the
    shard is the whole dataset. *)
Theorem ref_completions_aligned_with_local_shard
    (accelerator : Accelerator) (model : Model) (tokenizer : Tokenizer)
    (dataset : list PromptRow) (t : Trainer) (cs : list Call) (w' : World) :
  on_train_begin accelerator model tokenizer
    {| self := init dataset; trainer := t; calls := cs |} = (Ok tt, w') ->
  let shard := split_between_processes accelerator dataset in
  List.length (ref_completions (self w')) = List.length shard /\
  Forall2 (fun row text => completion_text model tokenizer (chosen row) = Ok text)
          shard (ref_completions (self w')) /\
  prompt_dataset (self w') = dataset /\
  (shard = dataset ->
   List.length (ref_completions (self w')) = List.length (prompt_dataset (self w'))) /\
  (forall model' judge wandb_available,
     self (snd (on_evaluate accelerator model' judge wandb_available tokenizer w'))
     = self w').
Proof.
  intros H shard.
  assert (Hframe : forall model' judge wandb_available,
             self (snd (on_evaluate accelerator model' judge wandb_available
                          tokenizer w')) = self w').
  { intros model' judge wandb_available. apply on_evaluate_same_self. }
  apply on_train_begin_completed in H. simpl in H.
  destruct H as [_ [texts [HF ->]]]. fold shard in HF. simpl.
  assert (Hlen : List.length texts = List.length shard).
  { apply Forall2_length in HF. rewrite length_map in HF. symmetry. exact HF. }
  split; [exact Hlen|]. split; [|split; [reflexivity|split]].
  - pose proof (proj1 (Forall2_map_left chosen (generates model tokenizer) shard texts) HF)
      as HF'.
    eapply Forall2_impl; [|exact HF']. intros row text [_ Hs]. exact Hs.
  - intros E. rewrite Hlen, E. reflexivity.
  - exact Hframe.
Qed.

(** C2 (witness).  The single-process run on the example dataset. *)
Lemma ref_completions_aligned_with_local_shard_witness :
  let w := {| self := init Example.dataset;
              trainer := {| training := true; global_step := 0%Z; log_history := [] |};
              calls := [] |} in
  let w' := snd (on_train_begin Example.single_process Example.reference_model
                   Example.tokenizer w) in
  on_train_begin Example.single_process Example.reference_model Example.tokenizer w
  = (Ok tt, w') /\
  List.length (ref_completions (self w')) = 3.
Proof.
  intros w w'. split; [vm_compute; reflexivity|].
  assert (H : on_train_begin Example.single_process Example.reference_model
                Example.tokenizer w = (Ok tt, w')) by (vm_compute; reflexivity).
  exact (proj1 (ref_completions_aligned_with_local_shard
                  Example.single_process Example.reference_model Example.tokenizer
                  Example.dataset _ _ w' H)).
Defined.


(** C4.  Both loop bodies, given a conversation ending in turn [t], hand
    to the chat template the conversation without [t] when the role of
    [t] is ["assistant"] and the whole conversation otherwise, and hand
    to [generate] the tokenization of that same input. *)
Theorem trailing_assistant_turn_is_stripped
    (model : Model) (tokenizer : Tokenizer) (init : Conversation) (t : Turn)
    (batch : list (string * string)) (i : nat) (w : World) :
  let messages := init ++ [t] in
  let input := if String.eqb (role t) "assistant" then init else messages in
  let made := [ApplyChatTemplate input;
               Generate (apply_chat_template tokenizer input)] in
  calls (snd (ref_completion_step model tokenizer tt messages w)) = calls w ++ made /\
  calls (snd (policy_completion_step model tokenizer batch (i, messages) w))
  = calls w ++ made.
Proof.
  intros messages input made.
  assert (Hne : messages <> []) by (unfold messages; destruct init; discriminate).
  assert (Hmade : generation_calls tokenizer messages = made).
  { unfold generation_calls, messages. rewrite generation_input_snoc. reflexivity. }
  split.
  - rewrite (ref_completion_step_run _ _ _ _ Hne), Hmade.
    destruct (completion_text model tokenizer messages); reflexivity.
  - rewrite (policy_completion_step_run _ _ _ _ _ _ Hne), Hmade.
    destruct (completion_text model tokenizer messages); [|reflexivity].
    destruct (getitem (ref_completions (self w)) i); reflexivity.
Qed.


(** C6 (as stated, refuted).  A callback on an empty dataset: the hook
    raises [AttributeError], and lines 114-140 entered with the empty
    gather raise [KeyError]; neither divides by zero. *)
Lemma empty_dataset_does_not_divide_by_zero :
  let w := Example.fresh [] in
  prompt_dataset (self w) = [] /\
  on_evaluate Example.single_process Example.policy_model Example.judge true
    Example.tokenizer w = (Raise AttributeError, w) /\
  aggregate true [] w = (Raise KeyError, w) /\
  fst (aggregate true [] w) <> Raise ZeroDivisionError.
Proof.
  intros w. split; [reflexivity|]. split; [reflexivity|]. split; [reflexivity|].
  simpl. discriminate.
Qed.

(** C6 (amended).  The win-rate computation of lines 114-118 returns no
    defined value for an empty prompt dataset, but it divides by zero
    only when rows were gathered nonetheless: with nothing gathered the
    dataset of line 116 has no column and the lookup of line 118 raises
    [KeyError] before the division.  With a non-empty prompt dataset the
    division is never by zero, and it yields the rate whenever at least
    as many rows were gathered as the dataset has prompts.  Whenever it
    raises, nothing was logged. *)
Theorem win_rate_of_empty_dataset_raises
    (wandb_available : bool) (gathered : list ResultRow) (w : World) :
  let n := List.length (prompt_dataset (self w)) in
  let run := aggregate wandb_available gathered w in
  (gathered = [] -> run = (Raise KeyError, w)) /\
  (n = 0 -> gathered <> [] -> run = (Raise ZeroDivisionError, w)) /\
  (0 < n -> fst run <> Raise ZeroDivisionError) /\
  (0 < n <= List.length gathered ->
   exists q, compute_win_rate (firstn n gathered) = Ok q /\
             run = (Ok tt, after_logging wandb_available q (firstn n gathered) w)).
Proof.
  intros n run.
  assert (Hok : 0 < n <= List.length gathered ->
                exists q, compute_win_rate (firstn n gathered) = Ok q /\
                  run = (Ok tt, after_logging wandb_available q (firstn n gathered) w)).
  { intros [Hpos Hle].
    assert (Hne : gathered <> []) by (intros E; rewrite E in Hle; simpl in Hle; lia).
    assert (Hkept : firstn n gathered <> []).
    { intros E. apply (f_equal (@List.length _)) in E. rewrite length_firstn in E.
      simpl in E. lia. }
    eexists. split; [apply compute_win_rate_eq; exact Hkept|].
    unfold run. rewrite (aggregate_run wandb_available gathered w Hne Hle).
    fold n. rewrite (compute_win_rate_eq _ Hkept). reflexivity. }
  split; [|split; [|split; [|exact Hok]]].
  - intros ->. apply aggregate_empty.
  - intros Hn Hne. unfold run.
    rewrite (aggregate_run wandb_available gathered w Hne) by (fold n; lia).
    fold n. rewrite Hn. reflexivity.
  - intros Hpos. destruct gathered as [|r gathered'].
    + unfold run. rewrite aggregate_empty. discriminate.
    + assert (Hne : r :: gathered' <> []) by discriminate.
      destruct (Nat.le_gt_cases n (List.length (r :: gathered'))) as [Hle|Hgt].
      * destruct (Hok (conj Hpos Hle)) as [q [_ E]]. rewrite E. discriminate.
      * unfold run. rewrite (aggregate_short wandb_available _ w Hne Hgt).
        discriminate.
Qed.

(** C6 (witness).  Nothing gathered for an empty dataset, and three rows
    gathered for the three prompts of the example. *)
Lemma win_rate_of_empty_dataset_raises_witness :
  let gathered :=
    [ {| results := 0%Z; prompts := "p0"; completions := ("ok", "hi") |};
      {| results := 1%Z; prompts := "p1"; completions := ("ok", "hi") |};
      {| results := 0%Z; prompts := "p2"; completions := ("ok", "hi") |} ]%string in
  aggregate true [] (Example.fresh []) = (Raise KeyError, Example.fresh []) /\
  aggregate true gathered (Example.fresh []) = (Raise ZeroDivisionError, Example.fresh []) /\
  0 < List.length (prompt_dataset (self Example.trained)) <= List.length gathered /\
  fst (aggregate true gathered Example.trained) = Ok tt.
Proof.
  intros gathered.
  assert (Hn : 0 < List.length (prompt_dataset (self Example.trained))
               <= List.length gathered) by (vm_compute; lia).
  split.
  { exact (proj1 (win_rate_of_empty_dataset_raises true [] (Example.fresh []))
             eq_refl). }
  split.
  { apply (proj1 (proj2 (win_rate_of_empty_dataset_raises true gathered
                           (Example.fresh [])))); [reflexivity|discriminate]. }
  split; [exact Hn|].
  destruct (proj2 (proj2 (proj2 (win_rate_of_empty_dataset_raises true gathered
                                   Example.trained))) Hn) as [q [_ Hrun]].
  rewrite Hrun. reflexivity.
Defined.

(** C7.  Whatever its arguments and however it ends, [on_evaluate]
    leaves the reference completions and the prompt dataset as they
    were; [on_train_begin], the only writer, leaves the dataset as it was
    and only appends to the reference completions. *)
Theorem on_evaluate_keeps_reference_completions
    (accelerator : Accelerator) (model : Model) (judge : Judge)
    (wandb_available : bool) (tokenizer : Tokenizer) (w : World) :
  let evaluated := snd (on_evaluate accelerator model judge wandb_available tokenizer w) in
  let begun := snd (on_train_begin accelerator model tokenizer w) in
  ref_completions (self evaluated) = ref_completions (self w) /\
  prompt_dataset (self evaluated) = prompt_dataset (self w) /\
  prompt_dataset (self begun) = prompt_dataset (self w) /\
  exists added, ref_completions (self begun) = ref_completions (self w) ++ added.
Proof.
  intros evaluated begun.
  pose proof (on_evaluate_same_self accelerator model judge wandb_available tokenizer w)
    as He.
  pose proof (on_train_begin_refs_extended accelerator model tokenizer w) as [Hd Hr].
  unfold same_self in He. fold evaluated in He. fold begun in Hd, Hr.
  rewrite He. repeat split; assumption.
Qed.

(** C8.  In both loop bodies, when the model returns the rows [g :: _]
    for the tokenized input, the text recorded is the decoding of [g]
    from the input's length on: token [j] of the decoded slice is token
    [length input + j] of [g], and when [g] is the input followed by a
    continuation the slice is that continuation. *)
Theorem completion_is_decoded_continuation
    (model : Model) (tokenizer : Tokenizer) (messages : Conversation)
    (g : list token) (rest : list (list token))
    (batch : list (string * string)) (i : nat) (r : string) (w : World) :
  messages <> [] ->
  let input_ids := apply_chat_template tokenizer (generation_input messages) in
  generate model input_ids = g :: rest ->
  nth_error (ref_completions (self w)) i = Some r ->
  let new_tokens := slice_from (List.length input_ids) g in
  ref_completions (self (snd (ref_completion_step model tokenizer tt messages w)))
  = ref_completions (self w) ++ [decode tokenizer new_tokens] /\
  fst (policy_completion_step model tokenizer batch (i, messages) w)
  = Ok (batch ++ [(decode tokenizer new_tokens, r)]) /\
  (forall j, nth_error new_tokens j = nth_error g (List.length input_ids + j)) /\
  (forall continuation, g = input_ids ++ continuation -> new_tokens = continuation).
Proof.
  intros Hne input_ids Hgen Hr new_tokens.
  pose proof (completion_text_row model tokenizer messages g rest Hgen) as Htext.
  fold input_ids in Htext. fold new_tokens in Htext.
  split; [|split; [|split]].
  - rewrite (ref_completion_step_run _ _ _ _ Hne), Htext. reflexivity.
  - rewrite (policy_completion_step_run _ _ _ _ _ _ Hne), Htext.
    unfold getitem. rewrite Hr. reflexivity.
  - intros j. apply slice_from_nth.
  - intros continuation ->. apply slice_from_app.
Qed.

(** C8 (witness).  The first example conversation with the policy model. *)
Lemma completion_is_decoded_continuation_witness :
  let messages := [Example.turn "user" "hello"; Example.turn "assistant" "gold"]%string in
  messages <> [] /\
  generate Example.policy_model
    (apply_chat_template Example.tokenizer (generation_input messages))
  = [5; 111; 107]%Z :: [] /\
  nth_error (ref_completions (self Example.trained)) 0 = Some "hi"%string /\
  ref_completions
    (self (snd (ref_completion_step Example.policy_model Example.tokenizer tt messages
                  Example.trained)))
  = ref_completions (self Example.trained) ++ ["ok"%string] /\
  fst (policy_completion_step Example.policy_model Example.tokenizer [] (0, messages)
         Example.trained)
  = Ok [("ok", "hi")]%string.
Proof.
  intros messages.
  assert (Hne : messages <> []) by discriminate.
  split; [exact Hne|]. split; [reflexivity|]. split; [reflexivity|].
  destruct (completion_is_decoded_continuation
              Example.policy_model Example.tokenizer messages [5; 111; 107]%Z []
              [] 0 "hi"%string Example.trained Hne eq_refl eq_refl)
    as [Href [Hpol _]].
  split; [exact Href|exact Hpol].
Defined.


(** C10.  A conversation with at least one turn has a last turn, and
    both loop bodies go on to call the chat template and the model; on an
    empty conversation both raise [IndexError] with the state untouched,
    and [on_train_begin], when its local shard starts with an empty
    conversation, raises [IndexError] having made no call at all (the
    model is left in evaluation mode). *)
Theorem trailing_turn_check_needs_a_turn
    (accelerator : Accelerator) (model : Model) (tokenizer : Tokenizer)
    (batch : list (string * string)) (i : nat) (w : World) :
  (forall messages,
     messages <> [] ->
     (exists final, getitem_last messages = Ok final) /\
     calls (snd (ref_completion_step model tokenizer tt messages w))
     = calls w ++ generation_calls tokenizer messages /\
     calls (snd (policy_completion_step model tokenizer batch (i, messages) w))
     = calls w ++ generation_calls tokenizer messages) /\
  getitem_last (@nil Turn) = Raise IndexError /\
  ref_completion_step model tokenizer tt [] w = (Raise IndexError, w) /\
  policy_completion_step model tokenizer batch (i, []) w = (Raise IndexError, w) /\
  (forall row rows,
     split_between_processes accelerator (prompt_dataset (self w)) = row :: rows ->
     chosen row = [] ->
     on_train_begin accelerator model tokenizer w = (Raise IndexError, in_mode false w)).
Proof.
  split; [|split; [reflexivity|split; [reflexivity|split; [reflexivity|]]]].
  - intros messages Hne. split; [|split].
    + destruct messages as [|t l]; [contradiction|]. simpl. eauto.
    + rewrite (ref_completion_step_run _ _ _ _ Hne).
      destruct (completion_text model tokenizer messages); reflexivity.
    + rewrite (policy_completion_step_run _ _ _ _ _ _ Hne).
      destruct (completion_text model tokenizer messages); [|reflexivity].
      destruct (getitem (ref_completions (self w)) i); reflexivity.
  - intros row rows Hshard Hrow.
    unfold on_train_begin, bind, get_self. rewrite Hshard. simpl. rewrite Hrow.
    reflexivity.
Qed.

(** C10 (witness).  A dataset whose only conversation has no turn. *)
Lemma trailing_turn_check_needs_a_turn_witness :
  let row := {| prompt := "p"%string; chosen := [] |} in
  let w := Example.fresh [row] in
  split_between_processes Example.single_process (prompt_dataset (self w)) = [row] /\
  chosen row = [] /\
  on_train_begin Example.single_process Example.reference_model Example.tokenizer w
  = (Raise IndexError, in_mode false w) /\
  calls (in_mode false w) = [].
Proof.
  intros row w.
  split; [reflexivity|]. split; [reflexivity|]. split; [|reflexivity].
  exact (proj2 (proj2 (proj2 (proj2
           (trailing_turn_check_needs_a_turn
              Example.single_process Example.reference_model Example.tokenizer
              [] 0 w))))
           row [] eq_refl eq_refl).
Defined.

(** ** Further properties of the hooks *)

Lemma same_mode_refl (w : World) : same_mode w w.
Proof. reflexivity. Qed.

Lemma same_mode_trans (w1 w2 w3 : World) :
  same_mode w1 w2 -> same_mode w2 w3 -> same_mode w1 w3.
Proof. unfold same_mode. congruence. Qed.

Lemma nothing_logged_refl (w : World) : nothing_logged w w.
Proof.
  split; [reflexivity|]. split; [reflexivity|].
  exists []. rewrite app_nil_r. split; [reflexivity|constructor].
Qed.

Lemma nothing_logged_trans (w1 w2 w3 : World) :
  nothing_logged w1 w2 -> nothing_logged w2 w3 -> nothing_logged w1 w3.
Proof.
  intros [Hh1 [Hg1 [a1 [Hc1 F1]]]] [Hh2 [Hg2 [a2 [Hc2 F2]]]].
  split; [congruence|]. split; [congruence|].
  exists (a1 ++ a2). split.
  - rewrite Hc2, Hc1, app_assoc. reflexivity.
  - apply Forall_app. split; assumption.
Qed.

Lemma nothing_logged_same (w w' : World) :
  log_history (trainer w') = log_history (trainer w) ->
  global_step (trainer w') = global_step (trainer w) ->
  calls w' = calls w ->
  nothing_logged w w'.
Proof.
  intros Hh Hg Hc. split; [exact Hh|]. split; [exact Hg|].
  exists []. rewrite app_nil_r. split; [exact Hc|constructor].
Qed.

Lemma nothing_logged_call (c : Call) :
  ~ is_log_call c -> maintains nothing_logged (record_call c).
Proof.
  intros Hc w. split; [reflexivity|]. split; [reflexivity|].
  exists [c]. split; [reflexivity|]. constructor; [exact Hc|constructor].
Qed.

Lemma ref_completion_step_nothing_logged (model : Model) (tokenizer : Tokenizer)
    (u : unit) (messages : Conversation) :
  maintains nothing_logged (ref_completion_step model tokenizer u messages).
Proof.
  unfold ref_completion_step, call_apply_chat_template, call_generate.
  frame nothing_logged_refl nothing_logged_trans;
    first [apply nothing_logged_call; intros [] | intros w; apply nothing_logged_same; reflexivity].
Qed.

Lemma policy_completion_step_nothing_logged (model : Model) (tokenizer : Tokenizer)
    (batch : list (string * string)) (im : nat * Conversation) :
  maintains nothing_logged (policy_completion_step model tokenizer batch im).
Proof.
  destruct im as [i messages].
  unfold policy_completion_step, call_apply_chat_template, call_generate.
  frame nothing_logged_refl nothing_logged_trans;
    first [apply nothing_logged_call; intros [] | intros w; apply nothing_logged_same; reflexivity].
Qed.

Lemma on_train_begin_nothing_logged (accelerator : Accelerator) (model : Model)
    (tokenizer : Tokenizer) :
  maintains nothing_logged (on_train_begin accelerator model tokenizer).
Proof.
  unfold on_train_begin.
  apply (maintains_bind _ nothing_logged_trans);
    [apply (maintains_get_self _ nothing_logged_refl)|intros cb].
  apply (maintains_bind _ nothing_logged_trans);
    [apply (maintains_lift _ nothing_logged_refl)|intros _].
  apply (maintains_bind _ nothing_logged_trans);
    [intros w; apply nothing_logged_same; reflexivity|intros _].
  apply (maintains_bind _ nothing_logged_trans);
    [|intros _ w; apply nothing_logged_same; reflexivity].
  apply (maintains_for_loop _ nothing_logged_refl nothing_logged_trans).
  intros u messages. apply ref_completion_step_nothing_logged.
Qed.

Lemma evaluate_shard_nothing_logged (accelerator : Accelerator) (model : Model)
    (judge : Judge) (tokenizer : Tokenizer) (local_dataset : list PromptRow) :
  maintains nothing_logged
    (evaluate_shard accelerator model judge tokenizer local_dataset).
Proof.
  unfold evaluate_shard, call_judge_batch.
  apply (maintains_bind _ nothing_logged_trans);
    [intros w; apply nothing_logged_same; reflexivity|intros _].
  apply (maintains_bind _ nothing_logged_trans).
  { apply (maintains_for_loop _ nothing_logged_refl nothing_logged_trans).
    intros batch im. apply policy_completion_step_nothing_logged. }
  intros batch.
  frame nothing_logged_refl nothing_logged_trans;
    first [apply nothing_logged_call; intros []
          | intros w; apply nothing_logged_same; reflexivity].
Qed.

Lemma evaluate_local_nothing_logged (accelerator : Accelerator) (model : Model)
    (judge : Judge) (tokenizer : Tokenizer) :
  maintains nothing_logged (evaluate_local accelerator model judge tokenizer).
Proof.
  unfold evaluate_local.
  apply (maintains_bind _ nothing_logged_trans);
    [apply (maintains_get_self _ nothing_logged_refl)|intros cb].
  apply (maintains_bind _ nothing_logged_trans);
    [apply (maintains_lift _ nothing_logged_refl)|intros local_dataset].
  apply evaluate_shard_nothing_logged.
Qed.

Lemma ref_completion_step_same_mode (model : Model) (tokenizer : Tokenizer)
    (u : unit) (messages : Conversation) :
  maintains same_mode (ref_completion_step model tokenizer u messages).
Proof.
  unfold ref_completion_step, call_apply_chat_template, call_generate.
  frame same_mode_refl same_mode_trans; intros w; reflexivity.
Qed.

Lemma policy_completion_step_same_mode (model : Model) (tokenizer : Tokenizer)
    (batch : list (string * string)) (im : nat * Conversation) :
  maintains same_mode (policy_completion_step model tokenizer batch im).
Proof.
  destruct im as [i messages].
  unfold policy_completion_step, call_apply_chat_template, call_generate.
  frame same_mode_refl same_mode_trans; intros w; reflexivity.
Qed.

Lemma aggregate_same_mode (wandb_available : bool) (gathered : list ResultRow) :
  maintains same_mode (aggregate wandb_available gathered).
Proof.
  unfold aggregate, trainer_log, wandb_log, log_history_pop.
  frame same_mode_refl same_mode_trans; intros w; reflexivity.
Qed.

(** X1.  When the local shard is empty, [on_train_begin] raises
    [IndexError] at [prompts[0]] (line 46) before anything else happens:
    no call is made, the model's mode is not switched and the callback is
    untouched. *)
Theorem on_train_begin_rejects_empty_shard
    (accelerator : Accelerator) (model : Model) (tokenizer : Tokenizer) (w : World) :
  split_between_processes accelerator (prompt_dataset (self w)) = [] ->
  on_train_begin accelerator model tokenizer w = (Raise IndexError, w).
Proof.
  intros E. unfold on_train_begin, bind, get_self. rewrite E. reflexivity.
Qed.

(** X1 (witness).  A callback constructed on an empty dataset. *)
Lemma on_train_begin_rejects_empty_shard_witness :
  split_between_processes Example.single_process
    (prompt_dataset (self (Example.fresh []))) = [] /\
  on_train_begin Example.single_process Example.reference_model Example.tokenizer
    (Example.fresh []) = (Raise IndexError, Example.fresh []).
Proof.
  split; [reflexivity|].
  apply (on_train_begin_rejects_empty_shard Example.single_process
           Example.reference_model Example.tokenizer (Example.fresh [])).
  reflexivity.
Defined.

Lemma on_train_begin_by_loop (accelerator : Accelerator) (model : Model)
    (tokenizer : Tokenizer) (w : World) :
  split_between_processes accelerator (prompt_dataset (self w)) <> [] ->
  on_train_begin accelerator model tokenizer w
  = let (o, w2) :=
      for_loop (map chosen (split_between_processes accelerator (prompt_dataset (self w))))
        (ref_completion_step model tokenizer) tt (in_mode false w) in
    match o with
    | Ok _ => (Ok tt, in_mode true w2)
    | Raise e => (Raise e, w2)
    end.
Proof.
  intros Hne. unfold on_train_begin, bind, get_self.
  destruct (split_between_processes accelerator (prompt_dataset (self w)))
    as [|row rows]; [contradiction|].
  reflexivity.
Qed.

Lemma on_train_begin_mode (accelerator : Accelerator) (model : Model)
    (tokenizer : Tokenizer) (w : World) :
  split_between_processes accelerator (prompt_dataset (self w)) <> [] ->
  training (trainer (snd (on_train_begin accelerator model tokenizer w)))
  = match fst (on_train_begin accelerator model tokenizer w) with
    | Ok _ => true
    | Raise _ => false
    end.
Proof.
  intros Hne. rewrite (on_train_begin_by_loop _ _ _ _ Hne).
  pose proof (maintains_for_loop same_mode same_mode_refl same_mode_trans
                (map chosen (split_between_processes accelerator (prompt_dataset (self w))))
                (ref_completion_step model tokenizer) tt
                (ref_completion_step_same_mode model tokenizer)
                (in_mode false w)) as Hloop.
  unfold same_mode in Hloop.
  destruct (for_loop _ _ tt (in_mode false w)) as [[u|e] w2];
    simpl in Hloop |- *; [reflexivity|exact Hloop].
Qed.

(** X2.  Neither hook restores the model's mode.  With a non-empty
    shard [on_train_begin] leaves the model in training mode when it
    returns and in evaluation mode when it raises, whatever the mode was
    before.  [on_evaluate] leaves the mode as it found it: it raises at
    line 76, before the switch of line 81. *)
Theorem model_mode_after_hooks
    (accelerator : Accelerator) (model : Model) (judge : Judge)
    (wandb_available : bool) (tokenizer : Tokenizer) (w : World) :
  let shard := split_between_processes accelerator (prompt_dataset (self w)) in
  let begun := on_train_begin accelerator model tokenizer w in
  let evaluated := on_evaluate accelerator model judge wandb_available tokenizer w in
  (shard <> [] ->
   training (trainer (snd begun))
   = match fst begun with Ok _ => true | Raise _ => false end) /\
  training (trainer (snd evaluated)) = training (trainer w).
Proof.
  intros shard begun evaluated. split; [|reflexivity].
  intros Hne. apply on_train_begin_mode. exact Hne.
Qed.

(** X2 (witness).  The example, with the model in evaluation mode
    before the hooks. *)
Lemma model_mode_after_hooks_witness :
  let w := in_mode false Example.trained in
  split_between_processes Example.single_process (prompt_dataset (self w)) <> [] /\
  training (trainer w) = false /\
  training (trainer (snd (on_train_begin Example.single_process Example.policy_model
                            Example.tokenizer w))) = true /\
  training (trainer (snd (on_evaluate Example.single_process Example.policy_model
                            Example.judge true Example.tokenizer w))) = false.
Proof.
  intros w.
  assert (Hne : split_between_processes Example.single_process
                  (prompt_dataset (self w)) <> []) by discriminate.
  destruct (model_mode_after_hooks Example.single_process Example.policy_model
              Example.judge true Example.tokenizer w) as [Hbegin Heval].
  split; [exact Hne|]. split; [reflexivity|].
  split; [rewrite (Hbegin Hne); reflexivity|exact Heval].
Defined.

(** X3.  [on_train_begin] never logs, and neither does [on_evaluate] on
    a process that is not the main one: however they end, the log
    history and the global step are as before and no logger was called.
    On such a process [on_evaluate] computes no win rate: it ends as its
    local work (generation, judging, gathering) ends. *)
Theorem only_main_process_logs
    (accelerator : Accelerator) (model : Model) (judge : Judge)
    (wandb_available : bool) (tokenizer : Tokenizer) (w : World) :
  let local := evaluate_local accelerator model judge tokenizer w in
  let evaluated := on_evaluate accelerator model judge wandb_available tokenizer w in
  nothing_logged w (snd (on_train_begin accelerator model tokenizer w)) /\
  (is_main_process accelerator = false ->
   nothing_logged w (snd evaluated) /\
   evaluated = (match fst local with Ok _ => Ok tt | Raise e => Raise e end,
                snd local)).
Proof.
  intros local evaluated. split; [apply on_train_begin_nothing_logged|].
  intros Hmain.
  assert (E : evaluated
              = (match fst local with Ok _ => Ok tt | Raise e => Raise e end,
                 snd local)).
  { unfold evaluated, on_evaluate, bind. fold local. rewrite Hmain.
    destruct local as [[rows|e] w1]; reflexivity. }
  split; [|exact E].
  rewrite E. apply evaluate_local_nothing_logged.
Qed.

(** X3 (witness).  The second of two processes: it holds the third
    prompt and its padding copy, and is not the main process. *)
Lemma only_main_process_logs_witness :
  let accelerator :=
    {| split_between_processes := Example.padded_shard 2 1;
       gather_object := fun rows => rows;
       is_main_process := false |} in
  let w := snd (on_train_begin accelerator Example.reference_model Example.tokenizer
                  (Example.fresh Example.dataset)) in
  let evaluated := on_evaluate accelerator Example.policy_model Example.judge true
                     Example.tokenizer w in
  is_main_process accelerator = false /\
  List.length (ref_completions (self w)) = 2 /\
  nothing_logged w (snd evaluated).
Proof.
  intros accelerator w evaluated.
  split; [reflexivity|]. split; [reflexivity|].
  exact (proj1 (proj2 (only_main_process_logs accelerator Example.policy_model
                         Example.judge true Example.tokenizer w) eq_refl)).
Defined.



(** X5.  Lines 114-118 entered with fewer gathered rows than the dataset
    has prompts compute no win rate and log nothing: when some rows were
    gathered the selection of line 116 raises [IndexError]; when none
    was, the selection returns the empty dataset as it is and the column
    lookup of line 118 raises [KeyError]. *)
Theorem aggregation_rejects_short_gather
    (wandb_available : bool) (gathered : list ResultRow) (w : World) :
  List.length gathered < List.length (prompt_dataset (self w)) ->
  aggregate wandb_available gathered w
  = (Raise (match gathered with [] => KeyError | _ => IndexError end), w).
Proof.
  intros Hshort. destruct gathered as [|r gathered'].
  - apply aggregate_empty.
  - apply aggregate_short; [discriminate|exact Hshort].
Qed.

(** X5 (witness).  One row and no row gathered for the three prompts of
    the example. *)
Lemma aggregation_rejects_short_gather_witness :
  let row := {| results := 0%Z; prompts := "p0"; completions := ("ok", "hi") |}%string in
  List.length [row] < List.length (prompt_dataset (self Example.trained)) /\
  aggregate true [row] Example.trained = (Raise IndexError, Example.trained) /\
  aggregate true [] Example.trained = (Raise KeyError, Example.trained).
Proof.
  intros row.
  assert (H1 : List.length [row] < List.length (prompt_dataset (self Example.trained)))
    by (vm_compute; lia).
  assert (H0 : @List.length ResultRow []
               < List.length (prompt_dataset (self Example.trained)))
    by (vm_compute; lia).
  split; [exact H1|]. split.
  - exact (aggregation_rejects_short_gather true [row] Example.trained H1).
  - exact (aggregation_rejects_short_gather true [] Example.trained H0).
Defined.

(** X8.  [on_train_begin] does not reset the reference completions: it
    appends to whatever the list holds.  Run a second time on the same
    callback (with any model), it leaves a list twice as long as the
    shard whose first half is still the first run's completions, the
    ones [on_evaluate] reads at the shard's indices. *)
Theorem repeated_on_train_begin_appends
    (accelerator : Accelerator) (model1 model2 : Model) (tokenizer : Tokenizer)
    (dataset : list PromptRow) (t : Trainer) (cs : list Call)
    (texts1 texts2 : list string) :
  let w0 := {| self := init dataset; trainer := t; calls := cs |} in
  let shard := split_between_processes accelerator dataset in
  shard <> [] ->
  Forall2 (generates model1 tokenizer) (map chosen shard) texts1 ->
  Forall2 (generates model2 tokenizer) (map chosen shard) texts2 ->
  let first := on_train_begin accelerator model1 tokenizer w0 in
  let second := on_train_begin accelerator model2 tokenizer (snd first) in
  fst first = Ok tt /\
  fst second = Ok tt /\
  ref_completions (self (snd second)) = texts1 ++ texts2 /\
  List.length (ref_completions (self (snd second))) = 2 * List.length shard /\
  forall i, i < List.length shard ->
            nth_error (ref_completions (self (snd second))) i = nth_error texts1 i.
Proof.
  intros w0 shard Hne H1 H2 first second.
  assert (E1 : first = (Ok tt,
                        in_mode true
                          (advance texts1
                             (flat_map (generation_calls tokenizer) (map chosen shard))
                             w0))).
  { apply (on_train_begin_run model1 tokenizer accelerator texts1 w0); assumption. }
  assert (E2 : second = (Ok tt,
                         in_mode true
                           (advance texts2
                              (flat_map (generation_calls tokenizer) (map chosen shard))
                              (snd first)))).
  { assert (Hd : prompt_dataset (self (snd first)) = dataset)
      by (rewrite E1; reflexivity).
    pose proof (on_train_begin_run model2 tokenizer accelerator texts2 (snd first))
      as R.
    cbv zeta in R. rewrite Hd in R. apply R; assumption. }
  assert (L1 : List.length texts1 = List.length shard).
  { apply Forall2_length in H1. rewrite length_map in H1. symmetry. exact H1. }
  assert (L2 : List.length texts2 = List.length shard).
  { apply Forall2_length in H2. rewrite length_map in H2. symmetry. exact H2. }
  assert (Hrefs : ref_completions (self (snd second)) = texts1 ++ texts2).
  { rewrite E2, E1. reflexivity. }
  split; [rewrite E1; reflexivity|]. split; [rewrite E2; reflexivity|].
  split; [exact Hrefs|]. split.
  - rewrite Hrefs, length_app. lia.
  - intros i Hi. rewrite Hrefs. apply nth_error_app1. lia.
Qed.

(** X8 (witness).  The example's [on_train_begin] run twice, the second
    time with another model. *)
Lemma repeated_on_train_begin_appends_witness :
  let shard := split_between_processes Example.single_process Example.dataset in
  let first := on_train_begin Example.single_process Example.reference_model
                 Example.tokenizer (Example.fresh Example.dataset) in
  let second := on_train_begin Example.single_process Example.policy_model
                  Example.tokenizer (snd first) in
  shard <> [] /\
  Forall2 (generates Example.reference_model Example.tokenizer) (map chosen shard)
    ["hi"; "hi"; "hi"]%string /\
  Forall2 (generates Example.policy_model Example.tokenizer) (map chosen shard)
    ["ok"; "ok"; "ok"]%string /\
  ref_completions (self (snd second)) = ["hi"; "hi"; "hi"; "ok"; "ok"; "ok"]%string.
Proof.
  intros shard first second.
  assert (Hne : shard <> []) by discriminate.
  assert (H1 : Forall2 (generates Example.reference_model Example.tokenizer)
                 (map chosen shard) ["hi"; "hi"; "hi"]%string).
  { repeat constructor; discriminate. }
  assert (H2 : Forall2 (generates Example.policy_model Example.tokenizer)
                 (map chosen shard) ["ok"; "ok"; "ok"]%string).
  { repeat constructor; discriminate. }
  split; [exact Hne|]. split; [exact H1|]. split; [exact H2|].
  exact (proj1 (proj2 (proj2 (repeated_on_train_begin_appends
                                Example.single_process Example.reference_model
                                Example.policy_model Example.tokenizer Example.dataset
                                _ _ _ _ Hne H1 H2)))).
Defined.

Lemma policy_wins_same_zeros (rows rows' : list ResultRow) :
  Forall2 (fun r r' => results r = 0%Z <-> results r' = 0%Z) rows rows' ->
  policy_wins rows = policy_wins rows'.
Proof.
  unfold policy_wins. induction 1 as [|r r' rows rows' Hrr _ IH]; [reflexivity|].
  simpl. rewrite IH.
  destruct (Z.eq_dec (results r) 0) as [E|E], (Z.eq_dec (results r') 0) as [E'|E'];
    try reflexivity; exfalso; tauto.
Qed.

Lemma compute_win_rate_by_counts (rows rows' : list ResultRow) :
  policy_wins rows = policy_wins rows' ->
  List.length rows = List.length rows' ->
  compute_win_rate rows = compute_win_rate rows'.
Proof.
  intros Hw Hl. destruct rows as [|r rows], rows' as [|r' rows'];
    try discriminate; [reflexivity|].
  rewrite !compute_win_rate_eq by discriminate. rewrite Hw, Hl. reflexivity.
Qed.

(** X9.  The win rate of line 118 tells a judgment of [0] from every
    other value and nothing else: a result that is not [0] (be it [1] or
    a marker of a failed judgment such as [-1]) counts against the
    policy, so replacing non-zero results by other non-zero results
    changes nothing; nor does the order of the results. *)
Theorem win_rate_counts_zero_judgments_only (rows rows' : list ResultRow) :
  (Forall2 (fun r r' => results r = 0%Z <-> results r' = 0%Z) rows rows' ->
   compute_win_rate rows = compute_win_rate rows') /\
  (Permutation (map results rows) (map results rows') ->
   compute_win_rate rows = compute_win_rate rows').
Proof.
  split.
  - intros H. apply compute_win_rate_by_counts.
    + apply policy_wins_same_zeros. exact H.
    + eapply Forall2_length. exact H.
  - intros H. apply compute_win_rate_by_counts.
    + unfold policy_wins.
      apply (proj1 (Permutation_count_occ Z.eq_dec _ _) H).
    + apply Permutation_length in H. rewrite !length_map in H. exact H.
Qed.

(** X9 (witness).  A failed judgment counts as a loss, wherever it
    stands. *)
Lemma win_rate_counts_zero_judgments_only_witness :
  let row z := {| results := z; prompts := "p"; completions := ("a", "b") |}%string in
  let rows := [row 0%Z; row 1%Z; row 0%Z] in
  let rows' := [row 0%Z; row (-1)%Z; row 0%Z] in
  let rows'' := [row 1%Z; row 0%Z; row 0%Z] in
  Forall2 (fun r r' => results r = 0%Z <-> results r' = 0%Z) rows rows' /\
  Permutation (map results rows) (map results rows'') /\
  compute_win_rate rows = compute_win_rate rows' /\
  compute_win_rate rows = compute_win_rate rows''.
Proof.
  intros row rows rows' rows''.
  assert (H1 : Forall2 (fun r r' => results r = 0%Z <-> results r' = 0%Z) rows rows').
  { repeat constructor; simpl; intros; discriminate. }
  assert (H2 : Permutation (map results rows) (map results rows'')).
  { simpl. apply perm_swap. }
  split; [exact H1|]. split; [exact H2|].
  split.
  - exact (proj1 (win_rate_counts_zero_judgments_only rows rows') H1).
  - exact (proj2 (win_rate_counts_zero_judgments_only rows rows'') H2).
Defined.

Lemma only_generated_refl (w : World) : only_generated w w.
Proof. exists []. rewrite app_nil_r. split; [reflexivity|constructor]. Qed.

Lemma only_generated_trans (w1 w2 w3 : World) :
  only_generated w1 w2 -> only_generated w2 w3 -> only_generated w1 w3.
Proof.
  intros [l1 [H1 F1]] [l2 [H2 F2]]. exists (l1 ++ l2). split.
  - rewrite H2, H1, app_assoc. reflexivity.
  - apply Forall_app. split; assumption.
Qed.

Lemma only_generated_same (w w' : World) : calls w' = calls w -> only_generated w w'.
Proof.
  intros H. exists []. rewrite app_nil_r. split; [exact H|constructor].
Qed.

Lemma only_generated_call (c : Call) :
  is_generation_call c -> maintains only_generated (record_call c).
Proof.
  intros Hc w. exists [c]. split; [reflexivity|]. constructor; [exact Hc|constructor].
Qed.

Lemma ref_completion_step_only_generated (model : Model) (tokenizer : Tokenizer)
    (u : unit) (messages : Conversation) :
  maintains only_generated (ref_completion_step model tokenizer u messages).
Proof.
  unfold ref_completion_step, call_apply_chat_template, call_generate.
  frame only_generated_refl only_generated_trans;
    first [apply only_generated_call; exact I
          | intros w; apply only_generated_same; reflexivity].
Qed.

Lemma policy_completion_step_only_generated (model : Model) (tokenizer : Tokenizer)
    (batch : list (string * string)) (im : nat * Conversation) :
  maintains only_generated (policy_completion_step model tokenizer batch im).
Proof.
  destruct im as [i messages].
  unfold policy_completion_step, call_apply_chat_template, call_generate.
  frame only_generated_refl only_generated_trans;
    first [apply only_generated_call; exact I
          | intros w; apply only_generated_same; reflexivity].
Qed.

Lemma evaluate_shard_by_loop (accelerator : Accelerator) (model : Model)
    (judge : Judge) (tokenizer : Tokenizer) (local_dataset : list PromptRow)
    (w : World) :
  evaluate_shard accelerator model judge tokenizer local_dataset w
  = let (o, w2) :=
      for_loop (enumerate (map chosen local_dataset))
        (policy_completion_step model tokenizer) [] (in_mode false w) in
    match o with
    | Ok batch =>
        (match from_dict (judge_batch judge (map prompt local_dataset) batch)
                 (map prompt local_dataset) batch with
         | Ok rows => Ok (gather_object accelerator rows)
         | Raise e => Raise e
         end,
         advance [] [JudgeBatch (map prompt local_dataset) batch] (in_mode true w2))
    | Raise e => (Raise e, w2)
    end.
Proof.
  unfold evaluate_shard, bind.
  unfold set_training at 1. change (with_trainer _ w) with (in_mode false w).
  destruct (for_loop _ _ [] (in_mode false w)) as [[batch|e] w2]; [|reflexivity].
  unfold call_judge_batch, record_call, set_training, bind, ret, lift. simpl.
  assert (E : forall c,
             with_calls (calls w2 ++ [c])
               (with_trainer {| training := true;
                                global_step := global_step (trainer w2);
                                log_history := log_history (trainer w2) |} w2)
             = advance [] [c] (in_mode true w2)).
  { intros c. destruct w2 as [[d c0 r] t cs]. unfold advance, in_mode, with_calls,
      with_trainer. simpl. rewrite app_nil_r. reflexivity. }
  rewrite E. destruct (from_dict _ _ _); reflexivity.
Qed.

(** The order of the calls of lines 78-140 on a local dataset. *)
Lemma evaluate_shard_calls (accelerator : Accelerator) (model : Model)
    (judge : Judge) (wandb_available : bool) (tokenizer : Tokenizer)
    (local_dataset : list PromptRow) (w : World) :
  exists gen later,
    calls (snd (bind (evaluate_shard accelerator model judge tokenizer local_dataset)
                  (fun results_dict =>
                     if is_main_process accelerator
                     then aggregate wandb_available results_dict
                     else ret tt) w))
    = calls w ++ gen ++ later /\
    Forall is_generation_call gen /\
    (later = [] \/
     exists ps cs logs, later = JudgeBatch ps cs :: logs /\ Forall is_log_call logs).
Proof.
  pose proof (maintains_for_loop only_generated only_generated_refl
                only_generated_trans
                (enumerate (map chosen local_dataset))
                (policy_completion_step model tokenizer) []
                (policy_completion_step_only_generated model tokenizer)
                (in_mode false w)) as [gen [Hgen Fgen]].
  simpl calls in Hgen.
  unfold bind. rewrite evaluate_shard_by_loop.
  destruct (for_loop _ _ [] (in_mode false w)) as [[batch|e] w2]; simpl in Hgen.
  2:{ exists gen, []. simpl. rewrite app_nil_r.
      split; [exact Hgen|]. split; [exact Fgen|left; reflexivity]. }
  set (J := JudgeBatch _ batch).
  destruct (from_dict _ _ batch) as [rows|e].
  2:{ exists gen, [J]. simpl. rewrite Hgen, <- app_assoc.
      split; [reflexivity|]. split; [exact Fgen|].
      right. exists (map prompt local_dataset), batch, [].
      split; [reflexivity|constructor]. }
  destruct (is_main_process accelerator).
  - destruct (aggregate_only_logged wandb_available
                (gather_object accelerator rows)
                (advance [] [J] (in_mode true w2))) as [logs [Hlogs Flogs]].
    exists gen, (J :: logs). rewrite Hlogs. simpl. rewrite Hgen, <- !app_assoc.
    split; [reflexivity|]. split; [exact Fgen|].
    right. exists (map prompt local_dataset), batch, logs.
    split; [reflexivity|exact Flogs].
  - exists gen, [J]. simpl. rewrite Hgen, <- app_assoc.
    split; [reflexivity|]. split; [exact Fgen|].
    right. exists (map prompt local_dataset), batch, [].
    split; [reflexivity|constructor].
Qed.

(** X10.  The calls of a hook come in a fixed order, however it ends:
    [on_train_begin] calls the chat template and the model only;
    [on_evaluate] first calls the chat template and the model, then the
    judge at most once, and the loggers only after the judge. *)
Theorem calls_are_generations_then_judge_then_logs
    (accelerator : Accelerator) (model : Model) (judge : Judge)
    (wandb_available : bool) (tokenizer : Tokenizer) (w : World) :
  (exists gen,
     calls (snd (on_train_begin accelerator model tokenizer w)) = calls w ++ gen /\
     Forall is_generation_call gen) /\
  (exists gen later,
     calls (snd (on_evaluate accelerator model judge wandb_available tokenizer w))
     = calls w ++ gen ++ later /\
     Forall is_generation_call gen /\
     (later = [] \/
      exists ps cs logs, later = JudgeBatch ps cs :: logs /\ Forall is_log_call logs)).
Proof.
  split.
  - assert (H : maintains only_generated (on_train_begin accelerator model tokenizer)).
    { unfold on_train_begin.
      apply (maintains_bind _ only_generated_trans);
        [apply (maintains_get_self _ only_generated_refl)|intros cb].
      apply (maintains_bind _ only_generated_trans);
        [apply (maintains_lift _ only_generated_refl)|intros _].
      apply (maintains_bind _ only_generated_trans);
        [intros w0; apply only_generated_same; reflexivity|intros _].
      apply (maintains_bind _ only_generated_trans);
        [|intros _ w0; apply only_generated_same; reflexivity].
      apply (maintains_for_loop _ only_generated_refl only_generated_trans).
      intros u messages. apply ref_completion_step_only_generated. }
    exact (H w).
  - unfold on_evaluate, evaluate_local.
    unfold bind at 1 2 3. unfold get_self, lift.
    destruct (dataset_from_dict
                (DatasetObject (split_between_processes accelerator
                                  (prompt_dataset (self w))))) as [local_dataset|e].
    + exact (evaluate_shard_calls accelerator model judge wandb_available tokenizer
               local_dataset w).
    + exists [], []. simpl. rewrite app_nil_r.
      split; [reflexivity|]. split; [constructor|left; reflexivity].
Qed.

Lemma for_loop_app {A S} (xs ys : list A) (body : S -> A -> M S) (s : S) (w : World) :
  for_loop (xs ++ ys) body s w
  = bind (for_loop xs body s) (fun s' => for_loop ys body s') w.
Proof.
  revert s w. induction xs as [|x xs IH]; intros s w; [reflexivity|].
  simpl. unfold bind.
  destruct (body s x w) as [[s'|e] w']; [|reflexivity].
  rewrite IH. reflexivity.
Qed.

(** X11.  [on_train_begin] does not undo its appends when it fails.  If
    the conversations before some position generate and the one at that
    position has no turn, or the model returns no row for it, the hook
    raises [IndexError] with the completions generated so far appended
    to the list and the model left in evaluation mode. *)
Theorem failed_on_train_begin_keeps_earlier_completions
    (accelerator : Accelerator) (model : Model) (tokenizer : Tokenizer) (w : World)
    (before : list Conversation) (m : Conversation) (rest : list Conversation)
    (texts : list string) :
  map chosen (split_between_processes accelerator (prompt_dataset (self w)))
  = before ++ m :: rest ->
  Forall2 (generates model tokenizer) before texts ->
  m = [] \/ generate model (apply_chat_template tokenizer (generation_input m)) = [] ->
  let run := on_train_begin accelerator model tokenizer w in
  fst run = Raise IndexError /\
  ref_completions (self (snd run)) = ref_completions (self w) ++ texts /\
  prompt_dataset (self (snd run)) = prompt_dataset (self w) /\
  training (trainer (snd run)) = false.
Proof.
  intros Hshard HF Hm run.
  assert (Hne : split_between_processes accelerator (prompt_dataset (self w)) <> []).
  { intros E. rewrite E in Hshard. destruct before; discriminate. }
  unfold run. rewrite (on_train_begin_by_loop _ _ _ _ Hne), Hshard, for_loop_app.
  rewrite (bind_Ok _ _ _ _ _ (ref_loop_run model tokenizer before texts _ HF)).
  simpl for_loop. unfold bind.
  destruct m as [|t0 m0] eqn:Em.
  - rewrite ref_completion_step_empty. simpl. repeat split; reflexivity.
  - rewrite <- Em in *.
    assert (Hm' : m <> []) by (rewrite Em; discriminate).
    destruct Hm as [Hm|Hm]; [contradiction|].
    rewrite (ref_completion_step_run _ _ _ _ Hm').
    unfold completion_text. rewrite Hm. simpl.
    rewrite app_nil_r. repeat split; reflexivity.
Qed.

(** X11 (witness).  The second conversation of the shard has no turn. *)
Lemma failed_on_train_begin_keeps_earlier_completions_witness :
  let rows := [ {| prompt := "p0"; chosen := [Example.turn "user" "hello"] |};
                {| prompt := "p1"; chosen := [] |} ]%string in
  let run := on_train_begin Example.single_process Example.reference_model
               Example.tokenizer (Example.fresh rows) in
  Forall2 (generates Example.reference_model Example.tokenizer)
    [[Example.turn "user" "hello"]]%string ["hi"]%string /\
  fst run = Raise IndexError /\
  ref_completions (self (snd run)) = ["hi"]%string.
Proof.
  intros rows run.
  assert (HF : Forall2 (generates Example.reference_model Example.tokenizer)
                 [[Example.turn "user" "hello"]]%string ["hi"]%string).
  { repeat constructor; discriminate. }
  destruct (failed_on_train_begin_keeps_earlier_completions
              Example.single_process Example.reference_model Example.tokenizer
              (Example.fresh rows) [[Example.turn "user" "hello"]]%string [] []
              ["hi"]%string eq_refl HF (or_introl eq_refl))
    as [Hraise [Hrefs _]].
  split; [exact HF|]. split; [exact Hraise|exact Hrefs].
Defined.
